(** * Drag-and-drop item mover: [src/app/app.component.ts]

    A shallow embedding of the Angular component [AppComponent] and of the
    tweens it hands to d3, followed by the properties of its handlers.

    Conventions of the embedding.
    - A TypeScript [number] is an IEEE-754 binary64 value: Rocq's primitive
      [float], with the primitive operations [+], [-] and [*] (round to
      nearest, ties to even), exactly the arithmetic the handlers run.
    - Array positions and lengths ([indexOf], [splice], [length]) are
      integer-valued numbers below 2^32; they are kept in [Z], where their
      arithmetic is exact.
    - [Item] objects live in an object store ([heap]); the arrays and the
      [dragging] field hold references, so [indexOf] compares identities and
      [item.visible = ...] is seen through every alias.  A value of type
      [Item] that may be [undefined] is an [option loc].
    - A handler is a computation [M A]: it reads and writes the component,
      records the calls it makes on the event, the browser and d3 as a list
      of [Effect]s, and may stop with an uncaught [TypeError] ([None]).  In
      every handler below the access that can throw comes before the first
      mutation, so no partially updated state is lost by [None]. *)

From Stdlib Require Import Floats ZArith Lia String List Permutation Bool.
From stdpp Require Import base list.
Import ListNotations.

(** ** Data model *)

Abbreviation number := float (only parsing).

(** [interface Item] (lines 9-20); [visible] is optional. *)
Module Item.
Record t := mk {
  text : string;
  color : string;
  left : number;
  top : number;
  visible : option bool
}.

(** The object after [item.visible = v]. *)
Definition set_visible (v : bool) (it : t) : t :=
  mk (text it) (color it) (left it) (top it) (Some v).
End Item.

(** The fields of [interface DragItemStyle] (lines 25-38). *)
Inductive StyleField :=
  | Left | Top | Width | Height | LineHeight | BorderRadius.

Module DragItemStyle.
Record t := mk {
  left : number;
  top : number;
  width : number;
  height : number;
  lineHeight : number;
  borderRadius : number
}.

(** The assignment [style.f = v]. *)
Definition set (f : StyleField) (v : number) (s : t) : t :=
  match f with
  | Left => mk v (top s) (width s) (height s) (lineHeight s) (borderRadius s)
  | Top => mk (left s) v (width s) (height s) (lineHeight s) (borderRadius s)
  | Width => mk (left s) (top s) v (height s) (lineHeight s) (borderRadius s)
  | Height => mk (left s) (top s) (width s) v (lineHeight s) (borderRadius s)
  | LineHeight => mk (left s) (top s) (width s) (height s) v (borderRadius s)
  | BorderRadius => mk (left s) (top s) (width s) (height s) (lineHeight s) v
  end.
End DragItemStyle.

(** [mouseOffset = { x: 0, y: 0 }] (line 55). *)
Record Offset := { x : number; y : number }.

(** References to [Item] objects and the store they point into. *)
Definition loc := nat.

(** The component's fields (lines 46-55) and the store of its items. *)
Record AppComponent := {
  draggable : list (option loc);
  dropped : list (option loc);
  dragging : option loc;
  dragItemStyle : option DragItemStyle.t;
  mouseOffset : Offset;
  heap : list Item.t
}.

Definition set_draggable (l : list (option loc)) (c : AppComponent) :=
  Build_AppComponent l (dropped c) (dragging c) (dragItemStyle c) (mouseOffset c) (heap c).
Definition set_dropped (l : list (option loc)) (c : AppComponent) :=
  Build_AppComponent (draggable c) l (dragging c) (dragItemStyle c) (mouseOffset c) (heap c).
Definition set_dragging (d : option loc) (c : AppComponent) :=
  Build_AppComponent (draggable c) (dropped c) d (dragItemStyle c) (mouseOffset c) (heap c).
Definition set_dragItemStyle (s : option DragItemStyle.t) (c : AppComponent) :=
  Build_AppComponent (draggable c) (dropped c) (dragging c) s (mouseOffset c) (heap c).
Definition set_mouseOffset (o : Offset) (c : AppComponent) :=
  Build_AppComponent (draggable c) (dropped c) (dragging c) (dragItemStyle c) o (heap c).
Definition set_heap (h : list Item.t) (c : AppComponent) :=
  Build_AppComponent (draggable c) (dropped c) (dragging c) (dragItemStyle c) (mouseOffset c) h.

(** What a handler reads of the browser's [DragEvent]: the pointer position,
    whether [dataTransfer.setDragImage] is defined, and the target element. *)
Record DragEvent := {
  pageX : number;
  pageY : number;
  hasSetDragImage : bool;
  target : nat
}.

(** The rectangle returned by [getBoundingClientRect]. *)
Record DOMRect := {
  box_left : number;
  box_top : number;
  box_right : number;
  box_bottom : number
}.

(** ** Calls made on the environment *)

(** The closure given to [setTimeout] in [dragStart] (line 98). *)
Inductive Task :=
  | HideItem (item : loc).

(** The tween factories given to [attrTween] (lines 133 and 196); the drop
    factory captures [droppedIndex]. *)
Inductive Tween :=
  | DragEndTween
  | DropTween (droppedIndex : Z).

(** The listeners given to [on('end', ...)] (lines 152 and 228); the
    drag-cancel listener captures [item]. *)
Inductive EndListener :=
  | DragEndEnd (item : loc)
  | DropEnd.

(** [d3.select(el).transition().duration(d).attrTween(name, tw).on('end', k)]. *)
Record Transition := {
  selected : nat;
  duration : number;
  attr : string;
  tween : Tween;
  on_end : EndListener
}.

Inductive Effect :=
  | SetData (format data : string)
  | SetEffectAllowed (effect : string)
  | SetDragImage (selector : string) (ox oy : number)
  | SetTimeout (task : Task) (delay : number)
  | PreventDefault
  | StartTransition (tr : Transition).

(** ** The handler monad *)

Definition M (A : Type) : Type :=
  AppComponent -> option (A * AppComponent * list Effect).

Definition ret {A} (a : A) : M A := fun c => Some (a, c, []).

Definition bind {A B} (m : M A) (k : A -> M B) : M B := fun c =>
  match m c with
  | None => None
  | Some (a, c1, fx1) =>
      match k a c1 with
      | None => None
      | Some (b, c2, fx2) => Some (b, c2, fx1 ++ fx2)
      end
  end.

(** An uncaught [TypeError]. *)
Definition throw {A} : M A := fun _ => None.

Definition this : M AppComponent := fun c => Some (c, c, []).
Definition modify (f : AppComponent -> AppComponent) : M unit :=
  fun c => Some (tt, f c, []).
Definition emit (e : Effect) : M unit := fun c => Some (tt, c, [e]).

Declare Scope handler_scope.
Delimit Scope handler_scope with handler.
Notation "'let*' x ':=' m 'in' k" := (bind m (fun x => k))
  (at level 10, x name, m at level 100, k at level 200) : handler_scope.
Notation "m ';;' k" := (bind m (fun _ => k))
  (at level 100, k at level 200, right associativity) : handler_scope.
Local Open Scope handler_scope.

(** Reading a property of [r]: a [TypeError] when [r] is [undefined]. *)
Definition deref (r : option loc) : M Item.t := fun c =>
  match r with
  | None => None
  | Some l =>
      match heap c !! l with
      | None => None
      | Some it => Some (it, c, [])
      end
  end.

(** [item.visible = v] on the object [item] refers to. *)
Definition set_item_visible (item : loc) (v : bool) : M unit := fun c =>
  match heap c !! item with
  | None => None
  | Some it => Some (tt, set_heap (<[item := Item.set_visible v it]> (heap c)) c, [])
  end.

(** Reading [this.dragItemStyle.f]. *)
Definition style : M DragItemStyle.t := fun c =>
  match dragItemStyle c with
  | None => None
  | Some s => Some (s, c, [])
  end.

(** [this.dragItemStyle.f = v]. *)
Definition assign (fv : StyleField * number) : M unit := fun c =>
  match dragItemStyle c with
  | None => None
  | Some s => Some (tt, set_dragItemStyle (Some (DragItemStyle.set (fst fv) (snd fv) s)) c, [])
  end.

Fixpoint assign_all (fvs : list (StyleField * number)) : M unit :=
  match fvs with
  | [] => ret tt
  | fv :: rest => assign fv ;; assign_all rest
  end.

(** ** Arrays *)

(** [Array.prototype.indexOf]: position of the first element strictly equal
    to [v], or -1. *)
Fixpoint indexOf_from (i : Z) (l : list (option loc)) (v : option loc) : Z :=
  match l with
  | [] => (-1)%Z
  | w :: rest => if decide (w = v) then i else indexOf_from (i + 1)%Z rest v
  end.

Definition indexOf (l : list (option loc)) (v : option loc) : Z :=
  indexOf_from 0 l v.

(** [Array.prototype.splice(start, deleteCount)] without inserted elements:
    a negative [start] counts from the end, and both the start and the
    number of deleted elements are clamped to the array. *)
Definition splice {A} (l : list A) (start deleteCount : Z) : list A :=
  let len := Z.of_nat (length l) in
  let actualStart :=
    if (start <? 0)%Z then Z.max (len + start) 0 else Z.min start len in
  let actualDeleteCount := Z.min (Z.max deleteCount 0) (len - actualStart) in
  firstn (Z.to_nat actualStart) l
    ++ skipn (Z.to_nat (actualStart + actualDeleteCount)) l.

(** [Array.prototype.push]. *)
Definition push {A} (l : list A) (v : A) : list A := l ++ [v].

(** ** The component *)

(** Field initialisers (lines 47-55): the component before [ngOnInit]. *)
Definition new_AppComponent : AppComponent :=
  {| draggable := []; dropped := []; dragging := None; dragItemStyle := None;
     mouseOffset := {| x := 0; y := 0 |}; heap := [] |}.

(** An object literal: a new object in the store. *)
Definition new_item (it : Item.t) : M (option loc) := fun c =>
  Some (Some (length (heap c)), set_heap (heap c ++ [it]) c, []).

(** [ngOnInit] (lines 68-74). *)
Definition ngOnInit : M unit :=
  let* i1 := new_item (Item.mk "Item 1" "red" 100 100 None) in
  let* i2 := new_item (Item.mk "Item 2" "green" 200 100 None) in
  let* i3 := new_item (Item.mk "Item 3" "yellow" 300 100 None) in
  modify (set_draggable [i1; i2; i3]).

(** [dragStart] (lines 81-118).  It returns [false] when a drag is in
    progress and [undefined] otherwise. *)
Definition dragStart (event : DragEvent) (item : loc) : M (option bool) :=
  let* c := this in
  match dragging c with
  | Some _ => ret (Some false)
  | None =>
      let* it := deref (Some item) in
      emit (SetData "text" (Item.text it)) ;;
      emit (SetEffectAllowed "move") ;;
      modify (set_dragging (Some item)) ;;
      (if hasSetDragImage event
       then emit (SetDragImage ".drag-dummy" 0 0) ;;
            emit (SetTimeout (HideItem item) 0)
       else set_item_visible item false) ;;
      let* it := deref (Some item) in
      modify (set_dragItemStyle (Some
        {| DragItemStyle.left := Item.left it;
           DragItemStyle.top := Item.top it;
           DragItemStyle.width := 80;
           DragItemStyle.height := 80;
           DragItemStyle.lineHeight := 80;
           DragItemStyle.borderRadius := 50 |})) ;;
      let* c := this in
      modify (set_mouseOffset {| x := pageX event - Item.left it; y := y (mouseOffset c) |}) ;;
      let* c := this in
      modify (set_mouseOffset {| x := x (mouseOffset c); y := pageY event - Item.top it |}) ;;
      ret None
  end.

(** The task scheduled by [dragStart] when it runs. *)
Definition run_task (t : Task) : M unit :=
  match t with
  | HideItem item => set_item_visible item false
  end.

(** [dragEnd] (lines 125-158): it only schedules the transition. *)
Definition dragEnd (event : DragEvent) (item : loc) : M unit :=
  emit (StartTransition
    {| selected := target event; duration := 500; attr := "animate";
       tween := DragEndTween; on_end := DragEndEnd item |}).

(** [dragOver] (lines 165-171). *)
Definition dragOver (event : DragEvent) : M unit :=
  let* c := this in
  match dragging c with
  | Some _ => emit PreventDefault
  | None => ret tt
  end.

(** [drop] (lines 177-234), up to the scheduling of the transition. *)
Definition drop (event : DragEvent) : M unit :=
  emit PreventDefault ;;
  let* c := this in
  let index := indexOf (draggable c) (dragging c) in
  modify (fun c => set_draggable (splice (draggable c) index 1) c) ;;
  modify (fun c => set_dropped (push (dropped c) (dragging c)) c) ;;
  let* c := this in
  let droppedIndex := (Z.of_nat (length (dropped c)) - 1)%Z in
  emit (StartTransition
    {| selected := target event; duration := 1000; attr := "animate";
       tween := DropTween droppedIndex; on_end := DropEnd |}).

(** [moveDragElement] (lines 241-249). *)
Definition moveDragElement (event : DragEvent) : M unit :=
  let* c := this in
  match dragging c with
  | Some _ =>
      let* c := this in
      assign (Left, (pageX event - x (mouseOffset c))%float) ;;
      let* c := this in
      assign (Top, (pageY event - y (mouseOffset c))%float)
  | None => ret tt
  end.

(** ** Tweens *)

(** Modelled from the spec: [d3.interpolate] for two numbers.  The d3
    library is not part of [src/]; the spec describes it as "interpolate
    linearly between two numbers", which in the arithmetic of the program
    is the familiar [a + (b - a) * t]. *)
Definition interpolate (a b : number) : number -> number :=
  fun t => (a + (b - a) * t)%float.

(** The function a tween factory returns is kept as the list of
    assignments [this.dragItemStyle.f = v] it performs, in order, when it
    is called with the progress [t]. *)
Definition Step : Type := number -> list (StyleField * number).

(** The factory of the drag-cancel tween (lines 133-150). *)
Definition dragEnd_tween : M Step :=
  let* s := style in
  let* c := this in
  let* d := deref (dragging c) in
  let i_left := interpolate (DragItemStyle.left s) (Item.left d) in
  let i_top := interpolate (DragItemStyle.top s) (Item.top d) in
  ret (fun t => [(Left, i_left t); (Top, i_top t)]).

(** [querySelectorAll('.dropped-item')[droppedIndex].getBoundingClientRect()],
    given the rectangles of the rendered [.dropped-item] elements in
    document order; a [TypeError] when there is no such element. *)
Definition bounding_box (boxes : list DOMRect) (droppedIndex : Z) : M DOMRect :=
  fun c =>
    if (droppedIndex <? 0)%Z then None
    else match boxes !! Z.to_nat droppedIndex with
         | None => None
         | Some box => Some (box, c, [])
         end.

(** The factory of the drop tween (lines 196-226). *)
Definition drop_tween (boxes : list DOMRect) (droppedIndex : Z) : M Step :=
  let* box := bounding_box boxes droppedIndex in
  let* s := style in
  let i_left := interpolate (DragItemStyle.left s) (box_left box) in
  let i_top := interpolate (DragItemStyle.top s) (box_top box) in
  let i_width := interpolate (DragItemStyle.width s) (box_right box - box_left box) in
  let i_height := interpolate (DragItemStyle.height s) (box_bottom box - box_top box) in
  let i_lineHeight := interpolate (DragItemStyle.lineHeight s) 20 in
  let i_borderRadius := interpolate (DragItemStyle.borderRadius s) 0 in
  ret (fun t =>
    [(Left, i_left t); (Top, i_top t); (Width, i_width t); (Height, i_height t);
     (LineHeight, i_lineHeight t); (BorderRadius, i_borderRadius t)]).

Definition tween_factory (boxes : list DOMRect) (tw : Tween) : M Step :=
  match tw with
  | DragEndTween => dragEnd_tween
  | DropTween droppedIndex => drop_tween boxes droppedIndex
  end.

(** One call of the function a factory returned: the assignments, then the
    empty string. *)
Definition tween_step (st : Step) (t : number) : M string :=
  assign_all (st t) ;; ret EmptyString.

(** The ['end'] listeners (lines 152-157 and 228-233). *)
Definition end_listener (k : EndListener) : M unit :=
  match k with
  | DragEndEnd item =>
      set_item_visible item true ;;
      modify (set_dragging None)
  | DropEnd =>
      let* c := this in
      match dragging c with
      | None => throw
      | Some d => set_item_visible d true
      end ;;
      modify (set_dragging None)
  end.

(** The fields a step assigns. *)
Definition assigned (st : Step) (t : number) : list StyleField := map fst (st t).

(** The items a list of references points to. *)
Definition items_of (c : AppComponent) (l : list (option loc)) : list (option Item.t) :=
  map (fun r => match r with Some i => heap c !! i | None => None end) l.

(** ** Integers among the numbers *)

(** [p * 2^n]: the positive [p] with [n] zero bits appended. *)
Definition shl (p : positive) (n : nat) : positive := Nat.iter n xO p.

(** The number of binary digits of [p]. *)
Definition digits (p : positive) : nat := Pos.to_nat (digits2_pos p).

(** The binary64 encoding of the nonzero integer [+p] or [-p] when [p] has
    at most 53 binary digits: a 53-digit mantissa and the matching exponent. *)
Definition canonP (s : bool) (p : positive) : spec_float :=
  S754_finite s (shl p (53 - digits p)) (Z.of_nat (digits p) - 53).

Definition canonZ (n : Z) : spec_float :=
  match n with
  | Z0 => S754_zero false
  | Zpos p => canonP false p
  | Zneg p => canonP true p
  end.

(** The number written as the integer literal [n]: [n] rounded to the
    nearest binary64 value (it is [n] itself below 2^53). *)
Definition of_int (n : Z) : number :=
  SF2Prim (binary_normalize prec emax n 0 false).

(** ** Calls on the component *)

(** The component is driven from outside: the template calls its public
    methods on DOM events, the browser runs the scheduled task, and d3 calls
    the functions the tween factories returned and the ['end'] listeners.
    A step function is any function from the progress to assignments, which
    covers the ones the two factories build. *)
Inductive Call :=
  | CallNgOnInit
  | CallDragStart (event : DragEvent) (item : loc)
  | CallDragEnd (event : DragEvent) (item : loc)
  | CallDragOver (event : DragEvent)
  | CallDrop (event : DragEvent)
  | CallMoveDragElement (event : DragEvent)
  | CallTask (task : Task)
  | CallTweenStep (st : Step) (t : number)
  | CallEnd (k : EndListener).

Definition call (k : Call) : M unit :=
  match k with
  | CallNgOnInit => ngOnInit
  | CallDragStart event item => dragStart event item ;; ret tt
  | CallDragEnd event item => dragEnd event item
  | CallDragOver event => dragOver event
  | CallDrop event => drop event
  | CallMoveDragElement event => moveDragElement event
  | CallTask task => run_task task
  | CallTweenStep st t => tween_step st t ;; ret tt
  | CallEnd k => end_listener k
  end.

(** The component after a call.  A call that throws leaves it as it was:
    in each of them the throwing access comes before the first mutation. *)
Definition after (k : Call) (c : AppComponent) : AppComponent :=
  match call k c with
  | Some (_, c', _) => c'
  | None => c
  end.

Definition after_all (ks : list Call) (c : AppComponent) : AppComponent :=
  fold_left (fun c k => after k c) ks c.

(** While a drag is in progress there is a ghost style and the dragged
    reference points to an item. *)
Definition drag_ready (c : AppComponent) : bool :=
  match dragging c with
  | None => true
  | Some d =>
      match dragItemStyle c, heap c !! d with
      | Some _, Some _ => true
      | _, _ => false
      end
  end.

(** Two items that differ at most in [visible]. *)
Definition same_tile (a b : Item.t) : Prop :=
  Item.text a = Item.text b /\ Item.color a = Item.color b /\
  Item.left a = Item.left b /\ Item.top a = Item.top b.

(** Every item of [h] is still in [h'], at the same reference and as the
    same tile. *)
Definition heap_extends (h h' : list Item.t) : Prop :=
  forall i it, h !! i = Some it -> exists it', h' !! i = Some it' /\ same_tile it it'.


(** A ghost style and a rectangle whose numbers are integers. *)
Definition style_of_ints (l t w h lh r : Z) : DragItemStyle.t :=
  {| DragItemStyle.left := of_int l; DragItemStyle.top := of_int t;
     DragItemStyle.width := of_int w; DragItemStyle.height := of_int h;
     DragItemStyle.lineHeight := of_int lh; DragItemStyle.borderRadius := of_int r |}.

Definition box_of_ints (l t r b : Z) : DOMRect :=
  {| box_left := of_int l; box_top := of_int t;
     box_right := of_int r; box_bottom := of_int b |}.

(** ** Example states *)

(** The component after its constructor and [ngOnInit]. *)
Definition initialised : AppComponent :=
  match ngOnInit new_AppComponent with
  | Some (_, c, _) => c
  | None => new_AppComponent
  end.

(** A drag event at [(px, py)] in a browser with or without [setDragImage]. *)
Definition drag_event (px py : number) (chrome : bool) : DragEvent :=
  {| pageX := px; pageY := py; hasSetDragImage := chrome; target := 0%nat |}.

(** The initialised component once the drag of its second item has started
    with the pointer at (230, 140). *)
Definition dragging_second : AppComponent :=
  match dragStart (drag_event 230 140 true) 1%nat initialised with
  | Some (_, c, _) => c
  | None => initialised
  end.

(** The same drag once the pointer has moved to (400, 300): the ghost is at
    (370, 260). *)
Definition moved_second : AppComponent :=
  match moveDragElement (drag_event 400 300 true) dragging_second with
  | Some (_, c, _) => c
  | None => dragging_second
  end.

(** The ghost style of [moved_second]. *)
Definition moved_style : DragItemStyle.t :=
  {| DragItemStyle.left := 370; DragItemStyle.top := 260;
     DragItemStyle.width := 80; DragItemStyle.height := 80;
     DragItemStyle.lineHeight := 80; DragItemStyle.borderRadius := 50 |}.

(** A component whose only tile is laid out at the fractional position
    left = 10.1 (the binary64 value nearest to it). *)
Definition fractional_item : Item.t :=
  Item.mk "Item 1" "red" 0x1.4333333333333p+3 100 None.

Definition fractional_layout : AppComponent :=
  {| draggable := [Some 0%nat]; dropped := []; dragging := None;
     dragItemStyle := None; mouseOffset := {| x := 0; y := 0 |};
     heap := [fractional_item] |}.


(** A rendered [.dropped-item] at integer coordinates. *)
Definition landing_box : DOMRect :=
  {| box_left := 500; box_top := 300; box_right := 700; box_bottom := 320 |}.

(** A whole drag and drop of the second item, as the browser and d3 drive
    it: start, the deferred hiding of the tile, a move, the drop, the
    creation of the tween, its last step and the ['end'] listener. *)
Definition drop_scenario : M unit :=
  ngOnInit ;;
  dragStart (drag_event 230 140 true) 1%nat ;;
  run_task (HideItem 1%nat) ;;
  moveDragElement (drag_event 400 300 true) ;;
  drop (drag_event 400 300 true) ;;
  let* st := tween_factory [landing_box] (DropTween 0) in
  tween_step st 1 ;;
  end_listener DropEnd.

(** A whole cancelled drag of the second item. *)
Definition cancel_scenario : M unit :=
  ngOnInit ;;
  dragStart (drag_event 230 140 true) 1%nat ;;
  run_task (HideItem 1%nat) ;;
  moveDragElement (drag_event 400 300 true) ;;
  dragEnd (drag_event 400 300 true) 1%nat ;;
  let* st := tween_factory [] DragEndTween in
  tween_step st 1 ;;
  end_listener (DragEndEnd 1%nat).


(** * Properties *)

(** ** Arrays: [indexOf] and [splice] *)

Lemma indexOf_from_first (l1 l2 : list (option loc)) (v : option loc) (i : Z) :
  ~ In v l1 -> indexOf_from i (l1 ++ v :: l2) v = (i + Z.of_nat (length l1))%Z.
Proof.
  revert i. induction l1 as [|w l1 IH]; intros i Hnot; simpl.
  - destruct (decide (v = v)); [lia | congruence].
  - destruct (decide (w = v)) as [->|_].
    + exfalso. apply Hnot. now left.
    + rewrite IH by (intros H; apply Hnot; now right). lia.
Qed.

Lemma indexOf_from_absent (l : list (option loc)) (v : option loc) (i : Z) :
  ~ In v l -> indexOf_from i l v = (-1)%Z.
Proof.
  revert i. induction l as [|w l IH]; intros i Hnot; simpl; [reflexivity|].
  destruct (decide (w = v)) as [->|_].
  - exfalso. apply Hnot. now left.
  - apply IH. intros H. apply Hnot. now right.
Qed.

(** An element of a list has a first occurrence. *)
Lemma in_first_split (l : list (option loc)) (v : option loc) :
  In v l -> exists l1 l2, l = l1 ++ v :: l2 /\ ~ In v l1.
Proof.
  induction l as [|w l IH]; intros Hin; [destruct Hin|].
  destruct (decide (w = v)) as [->|Hne].
  - exists [], l. split; [reflexivity | intros []].
  - destruct Hin as [->|Hin]; [congruence|].
    destruct (IH Hin) as (l1 & l2 & -> & Hnot).
    exists (w :: l1), l2. split; [reflexivity|].
    intros [H|H]; [congruence | exact (Hnot H)].
Qed.

Lemma splice_one_at {A} (l1 l2 : list A) (v : A) :
  splice (l1 ++ v :: l2) (Z.of_nat (length l1)) 1 = l1 ++ l2.
Proof.
  unfold splice. rewrite length_app. simpl length.
  destruct (Z.ltb_spec (Z.of_nat (length l1)) 0) as [H|_]; [lia|].
  rewrite Z.min_l by lia.
  replace (Z.max 1 0) with 1%Z by reflexivity.
  rewrite Z.min_l by lia.
  rewrite Nat2Z.id.
  replace (Z.to_nat (Z.of_nat (length l1) + 1)) with (length l1 + 1)%nat by lia.
  rewrite firstn_app, Nat.sub_diag, firstn_all. simpl. rewrite app_nil_r.
  rewrite skipn_app, skipn_all2 by lia.
  replace (length l1 + 1 - length l1)%nat with 1%nat by lia. reflexivity.
Qed.

Lemma splice_minus_one {A} (l : list A) :
  l <> [] -> splice l (-1) 1 = removelast l.
Proof.
  intros Hne. destruct (exists_last Hne) as (l' & a & ->).
  rewrite removelast_last. unfold splice. rewrite length_app. simpl length.
  replace (-1 <? 0)%Z with true by reflexivity.
  rewrite Z.max_l by lia.
  replace (Z.max 1 0) with 1%Z by reflexivity.
  rewrite Z.min_l by lia.
  replace (Z.to_nat (Z.of_nat (length l' + 1) + -1)) with (length l') by lia.
  replace (Z.to_nat (Z.of_nat (length l' + 1) + -1 + 1)) with (length l' + 1)%nat by lia.
  rewrite firstn_app, Nat.sub_diag, firstn_all. simpl. rewrite app_nil_r.
  rewrite skipn_all2 by (rewrite length_app; simpl; lia).
  now rewrite app_nil_r.
Qed.

(** What [drop] computes, whatever the state: it never throws, it prevents
    the default action and it schedules one transition. *)
Lemma drop_eq (event : DragEvent) (c : AppComponent) :
  drop event c =
    Some (tt,
          set_dropped (push (dropped c) (dragging c))
            (set_draggable
               (splice (draggable c) (indexOf (draggable c) (dragging c)) 1) c),
          [PreventDefault;
           StartTransition
             {| selected := target event; duration := 1000; attr := "animate";
                tween := DropTween (Z.of_nat (length (push (dropped c) (dragging c))) - 1);
                on_end := DropEnd |}]).
Proof. reflexivity. Qed.

(** ** The example states and two complete runs *)

Lemma example_states :
  draggable initialised = [Some 0%nat; Some 1%nat; Some 2%nat] /\
  dragging dragging_second = Some 1%nat /\
  mouseOffset dragging_second = {| x := 30; y := 40 |} /\
  dragItemStyle dragging_second =
    Some {| DragItemStyle.left := 200; DragItemStyle.top := 100;
            DragItemStyle.width := 80; DragItemStyle.height := 80;
            DragItemStyle.lineHeight := 80; DragItemStyle.borderRadius := 50 |} /\
  dragItemStyle moved_second = Some moved_style.
Proof. repeat split; vm_compute; reflexivity. Qed.

(** The drop runs to its end: the second item has moved to the dropped
    list and is visible again, the ghost has the rectangle of the landing
    box, and no drag is in progress. *)
Lemma drop_scenario_result :
  drop_scenario new_AppComponent =
    Some (tt,
          {| draggable := [Some 0%nat; Some 2%nat];
             dropped := [Some 1%nat];
             dragging := None;
             dragItemStyle :=
               Some {| DragItemStyle.left := 500; DragItemStyle.top := 300;
                       DragItemStyle.width := 200; DragItemStyle.height := 20;
                       DragItemStyle.lineHeight := 20; DragItemStyle.borderRadius := 0 |};
             mouseOffset := {| x := 30; y := 40 |};
             heap := [Item.mk "Item 1" "red" 100 100 None;
                      Item.mk "Item 2" "green" 200 100 (Some true);
                      Item.mk "Item 3" "yellow" 300 100 None] |},
          [SetData "text" "Item 2"; SetEffectAllowed "move";
           SetDragImage ".drag-dummy" 0 0; SetTimeout (HideItem 1%nat) 0;
           PreventDefault;
           StartTransition
             {| selected := 0%nat; duration := 1000; attr := "animate";
                tween := DropTween 0; on_end := DropEnd |}]).
Proof. vm_compute. reflexivity. Qed.

(** The cancelled drag runs to its end: the lists are as after [ngOnInit],
    the ghost is back on the tile, the tile is visible again. *)
Lemma cancel_scenario_result :
  cancel_scenario new_AppComponent =
    Some (tt,
          {| draggable := [Some 0%nat; Some 1%nat; Some 2%nat];
             dropped := [];
             dragging := None;
             dragItemStyle :=
               Some {| DragItemStyle.left := 200; DragItemStyle.top := 100;
                       DragItemStyle.width := 80; DragItemStyle.height := 80;
                       DragItemStyle.lineHeight := 80; DragItemStyle.borderRadius := 50 |};
             mouseOffset := {| x := 30; y := 40 |};
             heap := [Item.mk "Item 1" "red" 100 100 None;
                      Item.mk "Item 2" "green" 200 100 (Some true);
                      Item.mk "Item 3" "yellow" 300 100 None] |},
          [SetData "text" "Item 2"; SetEffectAllowed "move";
           SetDragImage ".drag-dummy" 0 0; SetTimeout (HideItem 1%nat) 0;
           StartTransition
             {| selected := 0%nat; duration := 500; attr := "animate";
                tween := DragEndTween; on_end := DragEndEnd 1%nat |}]).
Proof. vm_compute. reflexivity. Qed.

(** ** Initialisation *)

(** [ngOnInit] from any state: three new objects become the draggable list,
    nothing else of the component changes. *)
Lemma ngOnInit_eq (c : AppComponent) :
  ngOnInit c =
    Some (tt,
          set_draggable
            [Some (length (heap c)); Some (length (heap c ++ [Item.mk "Item 1" "red" 100 100 None]));
             Some (length ((heap c ++ [Item.mk "Item 1" "red" 100 100 None])
                             ++ [Item.mk "Item 2" "green" 200 100 None]))]
            (set_heap
               (((heap c ++ [Item.mk "Item 1" "red" 100 100 None])
                   ++ [Item.mk "Item 2" "green" 200 100 None])
                  ++ [Item.mk "Item 3" "yellow" 300 100 None]) c),
          []).
Proof. reflexivity. Qed.

(** C4. After the constructor and [ngOnInit] the draggable list holds exactly
    three items, 'Item 1' (red, left 100), 'Item 2' (green, left 200) and
    'Item 3' (yellow, left 300), all at top 100, they are three different
    objects, and the dropped list is empty. *)
Theorem ngOnInit_three_items :
  exists c,
    ngOnInit new_AppComponent = Some (tt, c, []) /\
    items_of c (draggable c) =
      [Some (Item.mk "Item 1" "red" 100 100 None);
       Some (Item.mk "Item 2" "green" 200 100 None);
       Some (Item.mk "Item 3" "yellow" 300 100 None)] /\
    NoDup (draggable c) /\
    dropped c = [].
Proof.
  eexists. split; [apply ngOnInit_eq|]. cbn.
  split; [reflexivity|]. split; [|reflexivity].
  repeat (apply NoDup_cons_2; [cbn; intros H; apply list_elem_of_In in H;
    repeat (destruct H as [H|H]; [discriminate H|]); exact H|]).
  apply NoDup_nil_2.
Qed.

(** ** dragStart *)

(** C5. A drag start that is accepted (no drag in progress) on an item of
    the store sets the ghost style to width 80, height 80, lineHeight 80 and
    borderRadius 50, with left and top those of the item. *)
Theorem dragStart_sets_style (event : DragEvent) (item : loc) (c : AppComponent) (it : Item.t) :
  dragging c = None ->
  heap c !! item = Some it ->
  exists c' fx,
    dragStart event item c = Some (None, c', fx) /\
    dragItemStyle c' =
      Some {| DragItemStyle.left := Item.left it;
              DragItemStyle.top := Item.top it;
              DragItemStyle.width := 80;
              DragItemStyle.height := 80;
              DragItemStyle.lineHeight := 80;
              DragItemStyle.borderRadius := 50 |}.
Proof.
  intros Hfree Hit.
  unfold dragStart, bind, this. rewrite Hfree.
  unfold deref at 1. rewrite Hit. cbn.
  destruct (hasSetDragImage event); cbn.
  - rewrite Hit. cbn. eauto.
  - unfold set_item_visible. cbn. rewrite Hit. cbn.
    rewrite list_lookup_insert_eq by (eapply lookup_lt_Some; eassumption).
    cbn. eauto.
Qed.

Lemma dragStart_sets_style_witness :
  dragging initialised = None /\
  initialised.(heap) !! 1%nat = Some (Item.mk "Item 2" "green" 200 100 None) /\
  exists c' fx,
    dragStart (drag_event 230 140 false) 1%nat initialised = Some (None, c', fx) /\
    dragItemStyle c' =
      Some {| DragItemStyle.left := 200;
              DragItemStyle.top := 100;
              DragItemStyle.width := 80;
              DragItemStyle.height := 80;
              DragItemStyle.lineHeight := 80;
              DragItemStyle.borderRadius := 50 |}.
Proof.
  split; [reflexivity|]. split; [reflexivity|].
  apply (dragStart_sets_style (drag_event 230 140 false) 1%nat initialised
           (Item.mk "Item 2" "green" 200 100 None)); reflexivity.
Defined.

(** C8. While a drag is in progress [dragStart] returns [false], makes no
    call on the event or the browser, and leaves the component and every
    item as they were. *)
Theorem dragStart_while_dragging (event : DragEvent) (item : loc) (c : AppComponent) (d : loc) :
  dragging c = Some d ->
  dragStart event item c = Some (Some false, c, []).
Proof.
  intros Hbusy. unfold dragStart, bind, this. rewrite Hbusy. reflexivity.
Qed.

Lemma dragStart_while_dragging_witness :
  dragging dragging_second = Some 1%nat /\
  dragStart (drag_event 120 130 true) 0%nat dragging_second
    = Some (Some false, dragging_second, []).
Proof.
  split; [reflexivity|].
  apply (dragStart_while_dragging (drag_event 120 130 true) 0%nat dragging_second 1%nat).
  reflexivity.
Defined.

(** ** dragOver *)

(** C7. [dragOver] calls [preventDefault] exactly when a drag is in
    progress; otherwise it makes no call.  In both cases it leaves the
    component unchanged. *)
Theorem dragOver_prevents_iff_dragging (event : DragEvent) (c : AppComponent) :
  exists fx,
    dragOver event c = Some (tt, c, fx) /\
    (In PreventDefault fx <-> dragging c <> None) /\
    fx = match dragging c with Some _ => [PreventDefault] | None => [] end.
Proof.
  unfold dragOver, bind, this. destruct (dragging c) as [d|]; cbn.
  - eexists. split; [reflexivity|]. split; [|reflexivity].
    split; [discriminate | intros _; now left].
  - eexists. split; [reflexivity|]. split; [|reflexivity].
    split; [intros [] | congruence].
Qed.

(** ** Durations *)

(** C6. The drag-cancel transition is scheduled with duration 500 and the
    drop transition with duration 1000, whatever the event, the item and
    the state. *)
Theorem transition_durations (event : DragEvent) (item : loc) (c : AppComponent) :
  (exists tr,
     dragEnd event item c = Some (tt, c, [StartTransition tr]) /\
     duration tr = 500%float /\ tween tr = DragEndTween) /\
  (exists c' tr,
     drop event c = Some (tt, c', [PreventDefault; StartTransition tr]) /\
     duration tr = 1000%float /\ exists i, tween tr = DropTween i).
Proof.
  split.
  - eexists. split; [reflexivity|]. split; reflexivity.
  - do 2 eexists. split; [apply drop_eq|]. split; [reflexivity|].
    eexists. reflexivity.
Qed.

(** ** drop: the two lists *)

(** C1. When the dragged item is in the draggable list, [drop] removes its
    first occurrence there, keeps the other draggable items in order,
    appends it to the dropped list, and so keeps the items of the two lists
    together the same up to order. *)
Theorem drop_moves_dragging (event : DragEvent) (c : AppComponent) :
  In (dragging c) (draggable c) ->
  exists c' fx l1 l2,
    drop event c = Some (tt, c', fx) /\
    draggable c = l1 ++ dragging c :: l2 /\
    ~ In (dragging c) l1 /\
    draggable c' = l1 ++ l2 /\
    dropped c' = dropped c ++ [dragging c] /\
    Permutation (draggable c' ++ dropped c') (draggable c ++ dropped c).
Proof.
  intros Hin. destruct (in_first_split _ _ Hin) as (l1 & l2 & Hsplit & Hnot).
  do 2 eexists. exists l1, l2.
  split; [apply drop_eq|]. split; [exact Hsplit|]. split; [exact Hnot|].
  assert (Hdr : splice (draggable c) (indexOf (draggable c) (dragging c)) 1 = l1 ++ l2).
  { unfold indexOf. rewrite Hsplit at 1 2.
    rewrite (indexOf_from_first l1 l2 (dragging c) 0 Hnot).
    apply splice_one_at. }
  cbn. rewrite Hdr. split; [reflexivity|]. split; [reflexivity|].
  unfold push. rewrite Hsplit.
  rewrite <- !app_assoc. apply Permutation_app_head.
  cbn. rewrite app_assoc. apply Permutation_sym, Permutation_cons_append.
Qed.

Lemma drop_moves_dragging_witness :
  In (dragging dragging_second) (draggable dragging_second) /\
  exists c' fx l1 l2,
    drop (drag_event 400 300 true) dragging_second = Some (tt, c', fx) /\
    draggable dragging_second = l1 ++ dragging dragging_second :: l2 /\
    ~ In (dragging dragging_second) l1 /\
    draggable c' = l1 ++ l2 /\
    dropped c' = dropped dragging_second ++ [dragging dragging_second] /\
    Permutation (draggable c' ++ dropped c')
      (draggable dragging_second ++ dropped dragging_second).
Proof.
  split; [right; left; reflexivity|].
  apply (drop_moves_dragging (drag_event 400 300 true) dragging_second).
  right; left; reflexivity.
Defined.

(** C10. When the dragged item (possibly [undefined]) is not in the
    draggable list and that list is not empty, [drop] still changes both
    lists: [indexOf] is -1, [splice(-1, 1)] removes the last draggable item,
    and the dragged value is appended to the dropped list. *)
Theorem drop_without_dragged_item (event : DragEvent) (c : AppComponent) :
  ~ In (dragging c) (draggable c) ->
  draggable c <> [] ->
  exists c' fx,
    drop event c = Some (tt, c', fx) /\
    indexOf (draggable c) (dragging c) = (-1)%Z /\
    draggable c' = removelast (draggable c) /\
    draggable c' <> draggable c /\
    dropped c' = dropped c ++ [dragging c].
Proof.
  intros Hnot Hne. do 2 eexists. split; [apply drop_eq|].
  assert (Hidx : indexOf (draggable c) (dragging c) = (-1)%Z)
    by (apply indexOf_from_absent; exact Hnot).
  split; [exact Hidx|]. cbn. rewrite Hidx, (splice_minus_one _ Hne).
  split; [reflexivity|]. split; [|reflexivity].
  intros Heq. destruct (exists_last Hne) as (l & a & Hl).
  rewrite Hl, removelast_last in Heq.
  apply (f_equal (@length _)) in Heq. rewrite length_app in Heq. cbn in Heq. lia.
Qed.

Lemma drop_without_dragged_item_witness :
  ~ In (dragging initialised) (draggable initialised) /\
  draggable initialised <> [] /\
  exists c' fx,
    drop (drag_event 400 300 true) initialised = Some (tt, c', fx) /\
    indexOf (draggable initialised) (dragging initialised) = (-1)%Z /\
    draggable c' = removelast (draggable initialised) /\
    draggable c' <> draggable initialised /\
    dropped c' = dropped initialised ++ [dragging initialised].
Proof.
  assert (Hnot : ~ In (dragging initialised) (draggable initialised)).
  { cbn. intros H. repeat (destruct H as [H|H]; [discriminate H|]). exact H. }
  assert (Hne : draggable initialised <> []) by discriminate.
  split; [exact Hnot|]. split; [exact Hne|].
  apply (drop_without_dragged_item (drag_event 400 300 true) initialised Hnot Hne).
Defined.

(** ** Integer arithmetic in binary64

    The handlers subtract, add and multiply numbers.  On integers of at
    most 53 binary digits these operations are exact; this is proved on the
    specification of binary64 ([SpecFloat]) and carried to the primitive
    operations by [FloatAxioms]. *)

Section IntegerArithmetic.
Local Open Scope Z_scope.

Lemma shl_shl p i j : shl (shl p i) j = shl p (j + i).
Proof. unfold shl. now rewrite Nat.iter_add. Qed.

Lemma Zpos_shl p n : Zpos (shl p n) = Zpos p * 2 ^ Z.of_nat n.
Proof.
  induction n as [|n IH].
  - cbn. lia.
  - change (shl p (S n)) with (xO (shl p n)).
    rewrite Pos2Z.inj_xO, IH, Nat2Z.inj_succ, Z.pow_succ_r by lia. lia.
Qed.

Lemma digits2_shl p n :
  Zpos (digits2_pos (shl p n)) = Z.of_nat (digits p) + Z.of_nat n.
Proof.
  unfold digits. induction n as [|n IH].
  - cbn. lia.
  - change (shl p (S n)) with (xO (shl p n)). cbn [digits2_pos].
    rewrite Pos2Z.inj_succ, IH. lia.
Qed.

Lemma digits_pos p : (1 <= digits p)%nat.
Proof. unfold digits. lia. Qed.

Lemma digits2_pos_size p : digits2_pos p = Pos.size p.
Proof. induction p; cbn; congruence. Qed.

Lemma digits_bound p : Zpos p < 2 ^ 53 -> (digits p <= 53)%nat.
Proof.
  intros Hp. unfold digits. rewrite digits2_pos_size.
  assert (Hle : 2 ^ Zpos (Pos.size p) <= 2 * Zpos p).
  { pose proof (Pos.size_le p) as H. apply Pos2Z.pos_le_pos in H.
    rewrite Pos2Z.inj_pow in H. exact H. }
  destruct (Z.le_gt_cases (Zpos (Pos.size p)) 53) as [H|H]; [lia|].
  assert (H54 : 2 ^ 54 <= 2 ^ Zpos (Pos.size p)) by (apply Z.pow_le_mono_r; lia).
  change (2 ^ 54) with (2 * 2 ^ 53) in H54. lia.
Qed.

Lemma Pos_iter_shl p d : Pos.iter xO p d = shl p (Pos.to_nat d).
Proof. unfold shl. rewrite Pos2Nat.inj_iter. 
  induction (Pos.to_nat d); cbn; congruence. Qed.

Lemma iter_pos_nat {A} (f : A -> A) n x :
  SpecFloat.iter_pos f n x = Nat.iter (Pos.to_nat n) f x.
Proof.
  revert x. induction n as [n IH|n IH|]; intros x; cbn [SpecFloat.iter_pos].
  - rewrite !IH, Pos2Nat.inj_xI.
    replace (S (2 * Pos.to_nat n))%nat with (Pos.to_nat n + (Pos.to_nat n + 1))%nat by lia.
    rewrite !Nat.iter_add. reflexivity.
  - rewrite !IH, Pos2Nat.inj_xO.
    replace (2 * Pos.to_nat n)%nat with (Pos.to_nat n + Pos.to_nat n)%nat by lia.
    now rewrite Nat.iter_add.
  - reflexivity.
Qed.

(** Shifting right across zero bits loses nothing. *)
Lemma shr_shl p n :
  Nat.iter n shr_1 (Build_shr_record (Zpos (shl p n)) false false)
  = Build_shr_record (Zpos p) false false.
Proof.
  induction n as [|n IH]; [reflexivity|].
  rewrite Nat.iter_succ_r. exact IH.
Qed.

Lemma fexp_digits (d : nat) :
  (1 <= d)%nat -> fexp prec emax (Z.of_nat d) = Z.of_nat d - 53.
Proof. intros Hd. unfold fexp, SpecFloat.emin, prec, emax. lia. Qed.

Lemma shr_fexp_exact p k :
  (digits p <= 53)%nat -> (53 - digits p <= k)%nat ->
  shr_fexp prec emax (Zpos (shl p k)) (- Z.of_nat k) loc_Exact
  = (Build_shr_record (Zpos (shl p (53 - digits p))) false false,
     Z.of_nat (digits p) - 53).
Proof.
  intros Hd Hk. pose proof (digits_pos p) as Hd1.
  unfold shr_fexp. cbn [Zdigits2 shr_record_of_loc].
  rewrite digits2_shl.
  replace (Z.of_nat (digits p) + Z.of_nat k + - Z.of_nat k) with (Z.of_nat (digits p)) by lia.
  rewrite fexp_digits by exact Hd1.
  unfold shr.
  destruct (Z.of_nat (digits p) - 53 - - Z.of_nat k) as [|n|n] eqn:Hn.
  - replace k with (53 - digits p)%nat by lia. f_equal. lia.
  - rewrite iter_pos_nat.
    replace k with (Pos.to_nat n + (53 - digits p))%nat at 1 by lia.
    rewrite <- shl_shl, shr_shl. f_equal. lia.
  - lia.
Qed.

Lemma binary_round_aux_exact s p k :
  (digits p <= 53)%nat -> (53 - digits p <= k)%nat ->
  binary_round_aux prec emax s (Zpos (shl p k)) (- Z.of_nat k) loc_Exact = canonP s p.
Proof.
  intros Hd Hk. pose proof (digits_pos p) as Hd1.
  unfold binary_round_aux. rewrite (shr_fexp_exact p k Hd Hk).
  cbn [shr_m loc_of_shr_record round_nearest_even].
  assert (Hsame : shr_fexp prec emax (Zpos (shl p (53 - digits p)))
                    (Z.of_nat (digits p) - 53) loc_Exact
                  = (Build_shr_record (Zpos (shl p (53 - digits p))) false false,
                     Z.of_nat (digits p) - 53)).
  { replace (Z.of_nat (digits p) - 53) with (- Z.of_nat (53 - digits p)) at 1 by lia.
    apply shr_fexp_exact; [exact Hd | lia]. }
  rewrite Hsame. cbn [shr_m].
  replace (Z.of_nat (digits p) - 53 <=? emax - prec) with true; [reflexivity|].
  symmetry. apply Z.leb_le. unfold emax, prec. lia.
Qed.

Lemma binary_round_exact s p k :
  (digits p <= 53)%nat ->
  binary_round prec emax s (shl p k) (- Z.of_nat k) = canonP s p.
Proof.
  intros Hd. pose proof (digits_pos p) as Hd1.
  unfold binary_round. rewrite digits2_shl.
  replace (Z.of_nat (digits p) + Z.of_nat k + - Z.of_nat k) with (Z.of_nat (digits p)) by lia.
  rewrite fexp_digits by exact Hd1.
  unfold shl_align.
  destruct (Z.of_nat (digits p) - 53 - - Z.of_nat k) as [|n|n] eqn:Hn.
  - apply binary_round_aux_exact; [exact Hd | lia].
  - apply binary_round_aux_exact; [exact Hd | lia].
  - rewrite Pos_iter_shl, shl_shl.
    replace (Pos.to_nat n + k)%nat with (53 - digits p)%nat by lia.
    replace (Z.of_nat (digits p) - 53) with (- Z.of_nat (53 - digits p)) at 1 by lia.
    apply binary_round_aux_exact; [exact Hd | lia].
Qed.

(** Rounding the integer [n * 2^k], given with exponent [-k], is exact. *)
Lemma binary_normalize_exact n k :
  Z.abs n < 2 ^ 53 ->
  binary_normalize prec emax (n * 2 ^ Z.of_nat k) (- Z.of_nat k) false = canonZ n.
Proof.
  intros Hn. destruct n as [|p|p]; [reflexivity| |].
  - rewrite <- Zpos_shl. cbn [binary_normalize canonZ].
    apply binary_round_exact, digits_bound. exact Hn.
  - change (Z.neg p) with (- Z.pos p). rewrite Z.mul_opp_l, <- Zpos_shl.
    cbn [binary_normalize canonZ Z.opp].
    apply binary_round_exact, digits_bound. exact Hn.
Qed.

Lemma valid_canonZ n : Z.abs n < 2 ^ 53 -> valid_binary (canonZ n) = true.
Proof.
  intros Hn.
  assert (Hp : forall s p, Zpos p < 2 ^ 53 -> valid_binary (canonP s p) = true).
  { intros s p Hp. pose proof (digits_bound p Hp) as Hd. pose proof (digits_pos p) as Hd1.
    cbn [SpecFloat.valid_binary canonP]. unfold bounded, canonical_mantissa.
    rewrite digits2_shl.
    replace (Z.of_nat (digits p) + Z.of_nat (53 - digits p) + (Z.of_nat (digits p) - 53))
      with (Z.of_nat (digits p)) by lia.
    rewrite fexp_digits by exact Hd1. rewrite Z.eqb_refl. cbn [andb].
    apply Z.leb_le. unfold emax, prec. lia. }
  destruct n as [|p|p]; [reflexivity| |]; apply Hp; exact Hn.
Qed.


Lemma canonZ_signed s p : canonZ (cond_Zopp s (Zpos p)) = canonP s p.
Proof. destruct s; reflexivity. Qed.

(** The mantissa of [canonP s p] once aligned to a smaller exponent [-k]. *)
Lemma aligned_mantissa s p k :
  (digits p <= 53)%nat -> (53 - digits p <= k)%nat ->
  cond_Zopp s (Zpos (fst (shl_align (shl p (53 - digits p))
                            (Z.of_nat (digits p) - 53) (- Z.of_nat k))))
  = cond_Zopp s (Zpos p) * 2 ^ Z.of_nat k.
Proof.
  intros Hd Hk. unfold shl_align.
  assert (Hval : forall m, Zpos m = Zpos p * 2 ^ Z.of_nat k ->
            cond_Zopp s (Zpos m) = cond_Zopp s (Zpos p) * 2 ^ Z.of_nat k).
  { intros m ->. destruct s; cbn [cond_Zopp]; lia. }
  destruct (- Z.of_nat k - (Z.of_nat (digits p) - 53)) as [|n|n] eqn:Hn;
    cbn [fst]; apply Hval.
  - rewrite Zpos_shl. do 2 f_equal. lia.
  - lia.
  - rewrite Pos_iter_shl, shl_shl, Zpos_shl. do 2 f_equal. lia.
Qed.

Section Exact.
Variables (sa sb : bool) (pa pb : positive).
Hypothesis Ha : Zpos pa < 2 ^ 53.
Hypothesis Hb : Zpos pb < 2 ^ 53.

Let a := cond_Zopp sa (Zpos pa).
Let b := cond_Zopp sb (Zpos pb).

Lemma common_exponent :
  exists k : nat,
    Z.min (Z.of_nat (digits pa) - 53) (Z.of_nat (digits pb) - 53) = - Z.of_nat k /\
    (53 - digits pa <= k)%nat /\ (53 - digits pb <= k)%nat.
Proof.
  pose proof (digits_bound pa Ha). pose proof (digits_bound pb Hb).
  exists (Z.to_nat (- Z.min (Z.of_nat (digits pa) - 53) (Z.of_nat (digits pb) - 53))).
  lia.
Qed.

Lemma SFadd_canonP :
  Z.abs (a + b) < 2 ^ 53 ->
  SFadd prec emax (canonP sa pa) (canonP sb pb) = canonZ (a + b).
Proof.
  intros Hab. destruct common_exponent as (k & Hk & Hka & Hkb).
  cbn [SFadd canonP]. rewrite Hk.
  rewrite !aligned_mantissa by (auto using digits_bound).
  rewrite <- Z.mul_add_distr_r. apply binary_normalize_exact. exact Hab.
Qed.

Lemma SFsub_canonP :
  Z.abs (a - b) < 2 ^ 53 ->
  SFsub prec emax (canonP sa pa) (canonP sb pb) = canonZ (a - b).
Proof.
  intros Hab. destruct common_exponent as (k & Hk & Hka & Hkb).
  cbn [SFsub canonP]. rewrite Hk.
  rewrite !aligned_mantissa by (auto using digits_bound).
  rewrite <- Z.mul_sub_distr_r. apply binary_normalize_exact. exact Hab.
Qed.
End Exact.

Lemma canonZ_cases n :
  n = 0 \/ exists s p, n = cond_Zopp s (Zpos p) /\ canonZ n = canonP s p.
Proof.
  destruct n as [|p|p]; [now left| |]; right.
  - exists false, p. now split.
  - exists true, p. now split.
Qed.

Lemma abs_signed s p : Z.abs (cond_Zopp s (Zpos p)) = Zpos p.
Proof. destruct s; reflexivity. Qed.

(** Sums and differences of integers are computed exactly as long as the
    operands and the result have at most 53 bits. *)
Lemma SFadd_canonZ a b :
  Z.abs a < 2 ^ 53 -> Z.abs b < 2 ^ 53 -> Z.abs (a + b) < 2 ^ 53 ->
  SFadd prec emax (canonZ a) (canonZ b) = canonZ (a + b).
Proof.
  intros Ha Hb Hab.
  destruct (canonZ_cases a) as [->|(sa & pa & -> & Ea)];
    destruct (canonZ_cases b) as [->|(sb & pb & -> & Eb)].
  - reflexivity.
  - rewrite Eb, Z.add_0_l, canonZ_signed. reflexivity.
  - rewrite Ea, Z.add_0_r, canonZ_signed. reflexivity.
  - rewrite Ea, Eb. rewrite abs_signed in Ha, Hb. now apply SFadd_canonP.
Qed.

Lemma SFsub_canonZ a b :
  Z.abs a < 2 ^ 53 -> Z.abs b < 2 ^ 53 -> Z.abs (a - b) < 2 ^ 53 ->
  SFsub prec emax (canonZ a) (canonZ b) = canonZ (a - b).
Proof.
  intros Ha Hb Hab.
  destruct (canonZ_cases a) as [->|(sa & pa & -> & Ea)];
    destruct (canonZ_cases b) as [->|(sb & pb & -> & Eb)].
  - reflexivity.
  - rewrite Eb, Z.sub_0_l. destruct sb; reflexivity.
  - rewrite Ea, Z.sub_0_r, canonZ_signed. reflexivity.
  - rewrite Ea, Eb. rewrite abs_signed in Ha, Hb. now apply SFsub_canonP.
Qed.

Lemma mul_shl_one m n : (m * shl 1 n)%positive = shl m n.
Proof.
  induction n as [|n IH]; [apply Pos.mul_1_r|].
  change (shl 1 (S n)) with (xO (shl 1 n)). change (shl m (S n)) with (xO (shl m n)).
  now rewrite Pos.mul_xO_r, IH.
Qed.

(** Multiplying an integer by one is exact. *)
Lemma SFmul_canonZ_one a :
  Z.abs a < 2 ^ 53 -> SFmul prec emax (canonZ a) (canonZ 1) = canonZ a.
Proof.
  intros Ha. destruct (canonZ_cases a) as [->|(s & p & -> & Ea)]; [reflexivity|].
  rewrite Ea. rewrite abs_signed in Ha.
  pose proof (digits_bound p Ha) as Hd. pose proof (digits_pos p) as Hd1.
  change (canonZ 1) with (S754_finite false (shl 1 52) (-52)).
  cbn [SFmul canonP]. rewrite mul_shl_one, shl_shl, xorb_false_r.
  replace (Z.of_nat (digits p) - 53 + -52) with (- Z.of_nat (52 + (53 - digits p))) by lia.
  apply binary_round_aux_exact; [exact Hd | lia].
Qed.

(** Multiplying a finite number by zero gives a zero. *)
Lemma SFmul_zero_r x :
  x <> S754_nan -> (forall s, x <> S754_infinity s) ->
  exists s, SFmul prec emax x (S754_zero false) = S754_zero s.
Proof.
  intros Hnan Hinf. destruct x as [s|s| |s m e]; cbn [SFmul]; eauto.
  - now destruct (Hinf s).
  - now destruct Hnan.
Qed.

(** Adding a zero to an integer changes nothing. *)
Lemma SFadd_canonZ_zero a s :
  SFadd prec emax (canonZ a) (S754_zero s) = canonZ a.
Proof. destruct a, s; reflexivity. Qed.

(** *** On the primitive numbers *)

Lemma Prim2SF_of_int n : Z.abs n < 2 ^ 53 -> Prim2SF (of_int n) = canonZ n.
Proof.
  intros Hn. unfold of_int.
  pose proof (binary_normalize_exact n 0 Hn) as E.
  change (- Z.of_nat 0) with 0 in E. change (2 ^ Z.of_nat 0) with 1 in E.
  rewrite Z.mul_1_r in E. rewrite E.
  apply Prim2SF_SF2Prim, valid_canonZ, Hn.
Qed.

Lemma of_int_sub a b :
  Z.abs a < 2 ^ 53 -> Z.abs b < 2 ^ 53 -> Z.abs (a - b) < 2 ^ 53 ->
  (of_int a - of_int b)%float = of_int (a - b).
Proof.
  intros Ha Hb Hab. apply Prim2SF_inj.
  rewrite sub_spec, !Prim2SF_of_int by assumption.
  now apply SFsub_canonZ.
Qed.

Lemma of_int_add a b :
  Z.abs a < 2 ^ 53 -> Z.abs b < 2 ^ 53 -> Z.abs (a + b) < 2 ^ 53 ->
  (of_int a + of_int b)%float = of_int (a + b).
Proof.
  intros Ha Hb Hab. apply Prim2SF_inj.
  rewrite add_spec, !Prim2SF_of_int by assumption.
  now apply SFadd_canonZ.
Qed.

Lemma of_int_mul_one a : Z.abs a < 2 ^ 53 -> (of_int a * 1)%float = of_int a.
Proof.
  intros Ha. apply Prim2SF_inj.
  rewrite mul_spec, Prim2SF_of_int by assumption.
  change (Prim2SF 1) with (canonZ 1). now apply SFmul_canonZ_one.
Qed.

(** [x - (x - y)] gives back [y]: the cancellation behind the mouse offset. *)
Lemma of_int_sub_cancel x y :
  Z.abs x < 2 ^ 52 -> Z.abs y < 2 ^ 52 ->
  (of_int x - (of_int x - of_int y))%float = of_int y.
Proof.
  intros Hx Hy. change (2 ^ 52) with 4503599627370496 in *.
  assert (E53 : 2 ^ 53 = 9007199254740992) by reflexivity.
  rewrite !of_int_sub by (rewrite E53; lia).
  f_equal. lia.
Qed.



(** The end of an interpolation between integers. *)
Lemma interpolate_end_int a b :
  Z.abs a < 2 ^ 52 -> Z.abs b < 2 ^ 52 ->
  interpolate (of_int a) (of_int b) 1 = of_int b.
Proof.
  intros Ha Hb. unfold interpolate. change (2 ^ 52) with 4503599627370496 in *.
  assert (E53 : 2 ^ 53 = 9007199254740992) by reflexivity.
  rewrite of_int_sub, of_int_mul_one, of_int_add by (rewrite E53; lia).
  f_equal. lia.
Qed.

Lemma interpolate_start_int a b :
  Z.abs a < 2 ^ 52 -> Z.abs b < 2 ^ 52 ->
  interpolate (of_int a) (of_int b) 0 = of_int a.
Proof.
  intros Ha Hb. unfold interpolate. change (2 ^ 52) with 4503599627370496 in *.
  assert (E53 : 2 ^ 53 = 9007199254740992) by reflexivity.
  rewrite of_int_sub by (rewrite E53; lia).
  apply Prim2SF_inj.
  rewrite add_spec, mul_spec, !Prim2SF_of_int by (rewrite E53; lia).
  unfold SF64add, SF64mul. change (Prim2SF 0) with (S754_zero false).
  destruct (SFmul_zero_r (canonZ (b - a))) as [s ->].
  - destruct (b - a) as [|p|p]; discriminate.
  - intros s. destruct (b - a) as [|p|p]; discriminate.
  - apply SFadd_canonZ_zero.
Qed.

End IntegerArithmetic.

(** ** dragStart followed by moveDragElement *)

(** What an accepted [dragStart] computes. *)
Lemma dragStart_eq (event : DragEvent) (item : loc) (c : AppComponent) (it : Item.t) :
  dragging c = None ->
  heap c !! item = Some it ->
  dragStart event item c =
    Some (None,
          {| draggable := draggable c;
             dropped := dropped c;
             dragging := Some item;
             dragItemStyle :=
               Some {| DragItemStyle.left := Item.left it;
                       DragItemStyle.top := Item.top it;
                       DragItemStyle.width := 80;
                       DragItemStyle.height := 80;
                       DragItemStyle.lineHeight := 80;
                       DragItemStyle.borderRadius := 50 |};
             mouseOffset := {| x := pageX event - Item.left it;
                               y := pageY event - Item.top it |};
             heap := if hasSetDragImage event then heap c
                     else <[item := Item.set_visible false it]> (heap c) |},
          [SetData "text" (Item.text it); SetEffectAllowed "move"]
            ++ (if hasSetDragImage event
                then [SetDragImage ".drag-dummy" 0 0; SetTimeout (HideItem item) 0]
                else [])).
Proof.
  intros Hfree Hit.
  unfold dragStart, bind, this. rewrite Hfree.
  unfold deref at 1. rewrite Hit. cbn.
  destruct (hasSetDragImage event); cbn.
  - rewrite Hit. reflexivity.
  - unfold set_item_visible. cbn. rewrite Hit. cbn.
    rewrite list_lookup_insert_eq by (eapply lookup_lt_Some; eassumption).
    reflexivity.
Qed.

(** What [moveDragElement] computes during a drag: only [left] and [top] of
    the ghost style are assigned. *)
Lemma moveDragElement_eq (event : DragEvent) (c : AppComponent) (d : loc) (s : DragItemStyle.t) :
  dragging c = Some d ->
  dragItemStyle c = Some s ->
  moveDragElement event c =
    Some (tt,
          set_dragItemStyle
            (Some {| DragItemStyle.left := pageX event - x (mouseOffset c);
                     DragItemStyle.top := pageY event - y (mouseOffset c);
                     DragItemStyle.width := DragItemStyle.width s;
                     DragItemStyle.height := DragItemStyle.height s;
                     DragItemStyle.lineHeight := DragItemStyle.lineHeight s;
                     DragItemStyle.borderRadius := DragItemStyle.borderRadius s |}) c,
          []).
Proof.
  intros Hd Hs. unfold moveDragElement, bind, this, assign. rewrite Hd. cbn.
  rewrite Hs. reflexivity.
Qed.

(** C9, as it holds on the code.  For an item and a pointer position whose coordinates are
    integers below 2^52 in magnitude, [moveDragElement] at the position
    [dragStart] was accepted at puts the ghost exactly at the item's left and
    top, so the component is unchanged by it.  Whatever the numbers,
    [moveDragElement] during a drag assigns [pageX - mouseOffset.x] and
    [pageY - mouseOffset.y] to [left] and [top] and changes no other field
    of the ghost style or of the component. *)
Theorem moveDragElement_after_dragStart
    (event event' : DragEvent) (item : loc) (c : AppComponent) (it : Item.t)
    (px py l t : Z) :
  dragging c = None ->
  heap c !! item = Some it ->
  pageX event' = pageX event ->
  pageY event' = pageY event ->
  pageX event = of_int px ->
  pageY event = of_int py ->
  Item.left it = of_int l ->
  Item.top it = of_int t ->
  (Z.abs px < 2 ^ 52)%Z -> (Z.abs py < 2 ^ 52)%Z ->
  (Z.abs l < 2 ^ 52)%Z -> (Z.abs t < 2 ^ 52)%Z ->
  (exists c1 fx s,
     dragStart event item c = Some (None, c1, fx) /\
     mouseOffset c1 = {| x := pageX event - Item.left it;
                         y := pageY event - Item.top it |} /\
     moveDragElement event' c1 = Some (tt, c1, []) /\
     dragItemStyle c1 = Some s /\
     DragItemStyle.left s = Item.left it /\
     DragItemStyle.top s = Item.top it) /\
  (forall ev c0 d0 s0,
     dragging c0 = Some d0 ->
     dragItemStyle c0 = Some s0 ->
     moveDragElement ev c0 =
       Some (tt,
             set_dragItemStyle
               (Some {| DragItemStyle.left := pageX ev - x (mouseOffset c0);
                        DragItemStyle.top := pageY ev - y (mouseOffset c0);
                        DragItemStyle.width := DragItemStyle.width s0;
                        DragItemStyle.height := DragItemStyle.height s0;
                        DragItemStyle.lineHeight := DragItemStyle.lineHeight s0;
                        DragItemStyle.borderRadius := DragItemStyle.borderRadius s0 |})
               c0,
             [])).
Proof.
  intros Hfree Hit HX HY Hpx Hpy Hl Ht Bpx Bpy Bl Bt.
  split; [|intros ev c0 d0 s0; apply moveDragElement_eq].
  do 3 eexists. split; [apply (dragStart_eq event item c it Hfree Hit)|].
  split; [reflexivity|].
  split; [|split; [reflexivity|split; reflexivity]].
  erewrite moveDragElement_eq by reflexivity.
  cbn. rewrite HX, HY, Hpx, Hpy, Hl, Ht.
  rewrite !of_int_sub_cancel by assumption. reflexivity.
Qed.

Lemma moveDragElement_after_dragStart_witness :
  exists c1 fx s,
    dragStart (drag_event 230 140 true) 1%nat initialised = Some (None, c1, fx) /\
    mouseOffset c1 = {| x := 30; y := 40 |} /\
    moveDragElement (drag_event 230 140 false) c1 = Some (tt, c1, []) /\
    dragItemStyle c1 = Some s /\
    DragItemStyle.left s = 200%float /\
    DragItemStyle.top s = 100%float.
Proof.
  exact (proj1 (moveDragElement_after_dragStart
    (drag_event 230 140 true) (drag_event 230 140 false) 1%nat initialised
    (Item.mk "Item 2" "green" 200 100 None) 230 140 200 100
    eq_refl eq_refl eq_refl eq_refl eq_refl eq_refl eq_refl eq_refl
    eq_refl eq_refl eq_refl eq_refl)).
Defined.

(** C9 as stated fails on numbers that are not integers: for a tile at
    left = 10.1 and the pointer at x = 150, the offset 150 - 10.1 is rounded,
    and the ghost is put at 150 - (150 - 10.1) = 10.099999999999994, to the
    left of the tile. *)
Lemma ghost_jumps_at_fractional_position :
  exists c1 fx c2 s,
    dragStart (drag_event 150 130 true) 0%nat fractional_layout = Some (None, c1, fx) /\
    moveDragElement (drag_event 150 130 true) c1 = Some (tt, c2, []) /\
    dragItemStyle c2 = Some s /\
    DragItemStyle.left s <> Item.left fractional_item /\
    (DragItemStyle.left s <? Item.left fractional_item)%float = true.
Proof.
  do 4 eexists.
  split; [apply (dragStart_eq _ _ fractional_layout fractional_item); reflexivity|].
  split; [eapply (moveDragElement_eq _ _ 0%nat); reflexivity|].
  split; [reflexivity|]. cbn. split; [|vm_compute; reflexivity].
  intros H. apply (f_equal Prim2SF) in H. vm_compute in H. discriminate H.
Qed.

(** ** The tweens *)

(** The step function built by the drag-cancel factory. *)
Lemma dragEnd_tween_eq (c : AppComponent) (s : DragItemStyle.t) (d : loc) (it : Item.t) :
  dragItemStyle c = Some s ->
  dragging c = Some d ->
  heap c !! d = Some it ->
  dragEnd_tween c =
    Some (fun t =>
            [(Left, interpolate (DragItemStyle.left s) (Item.left it) t);
             (Top, interpolate (DragItemStyle.top s) (Item.top it) t)],
          c, []).
Proof.
  intros Hs Hd Hit. unfold dragEnd_tween, bind, style, this, deref.
  rewrite Hs. cbn. rewrite Hd, Hit. reflexivity.
Qed.

(** The step function built by the drop factory. *)
Lemma drop_tween_eq (boxes : list DOMRect) (i : Z) (box : DOMRect)
    (c : AppComponent) (s : DragItemStyle.t) :
  (0 <= i)%Z ->
  boxes !! Z.to_nat i = Some box ->
  dragItemStyle c = Some s ->
  drop_tween boxes i c =
    Some (fun t =>
            [(Left, interpolate (DragItemStyle.left s) (box_left box) t);
             (Top, interpolate (DragItemStyle.top s) (box_top box) t);
             (Width, interpolate (DragItemStyle.width s) (box_right box - box_left box) t);
             (Height, interpolate (DragItemStyle.height s) (box_bottom box - box_top box) t);
             (LineHeight, interpolate (DragItemStyle.lineHeight s) 20 t);
             (BorderRadius, interpolate (DragItemStyle.borderRadius s) 0 t)],
          c, []).
Proof.
  intros Hi Hbox Hs. unfold drop_tween, bind, bounding_box, style.
  destruct (Z.ltb_spec i 0) as [H|_]; [lia|].
  rewrite Hbox, Hs. reflexivity.
Qed.

(** Running the assignments of a step on a component that has a ghost style. *)
Lemma tween_step_eq (st : Step) (t : number) (c : AppComponent) (s : DragItemStyle.t) :
  dragItemStyle c = Some s ->
  tween_step st t c =
    Some (EmptyString,
          set_dragItemStyle
            (Some (fold_left (fun s fv => DragItemStyle.set (fst fv) (snd fv) s) (st t) s)) c,
          []).
Proof.
  intros Hs. unfold tween_step, bind.
  assert (H : forall fvs c s, dragItemStyle c = Some s ->
            assign_all fvs c =
              Some (tt,
                    set_dragItemStyle
                      (Some (fold_left (fun s fv => DragItemStyle.set (fst fv) (snd fv) s) fvs s)) c,
                    [])).
  { clear. induction fvs as [|fv fvs IH]; intros c s Hs.
    - cbn. destruct c; cbn in *. now subst.
    - cbn [assign_all fold_left]. unfold bind, assign. rewrite Hs.
      erewrite IH by reflexivity. reflexivity. }
  rewrite (H _ _ _ Hs). reflexivity.
Qed.

(** C2, as it holds on the code.  A step of the drag-cancel tween assigns
    [left] and [top] of the ghost style and nothing else: after it [left]
    and [top] hold the values interpolated towards the dragged item's
    position, and width, height, lineHeight and borderRadius are as before.
    A step of the drop tween assigns [left], [top], [width], [height],
    [lineHeight] and [borderRadius]: after it each of the six holds the value
    interpolated towards the target box, 20 and 0.  Nothing else of the
    component changes and no call is made. *)
Theorem tween_step_assignments (c : AppComponent) (s : DragItemStyle.t) (t : number) :
  dragItemStyle c = Some s ->
  (forall d it,
     dragging c = Some d -> heap c !! d = Some it ->
     exists st,
       dragEnd_tween c = Some (st, c, []) /\
       assigned st t = [Left; Top] /\
       tween_step st t c =
         Some (EmptyString,
               set_dragItemStyle
                 (Some {| DragItemStyle.left :=
                            interpolate (DragItemStyle.left s) (Item.left it) t;
                          DragItemStyle.top :=
                            interpolate (DragItemStyle.top s) (Item.top it) t;
                          DragItemStyle.width := DragItemStyle.width s;
                          DragItemStyle.height := DragItemStyle.height s;
                          DragItemStyle.lineHeight := DragItemStyle.lineHeight s;
                          DragItemStyle.borderRadius := DragItemStyle.borderRadius s |})
                 c,
               [])) /\
  (forall boxes i box,
     (0 <= i)%Z -> boxes !! Z.to_nat i = Some box ->
     exists st,
       drop_tween boxes i c = Some (st, c, []) /\
       assigned st t = [Left; Top; Width; Height; LineHeight; BorderRadius] /\
       tween_step st t c =
         Some (EmptyString,
               set_dragItemStyle
                 (Some {| DragItemStyle.left :=
                            interpolate (DragItemStyle.left s) (box_left box) t;
                          DragItemStyle.top :=
                            interpolate (DragItemStyle.top s) (box_top box) t;
                          DragItemStyle.width :=
                            interpolate (DragItemStyle.width s)
                              (box_right box - box_left box) t;
                          DragItemStyle.height :=
                            interpolate (DragItemStyle.height s)
                              (box_bottom box - box_top box) t;
                          DragItemStyle.lineHeight :=
                            interpolate (DragItemStyle.lineHeight s) 20 t;
                          DragItemStyle.borderRadius :=
                            interpolate (DragItemStyle.borderRadius s) 0 t |})
                 c,
               [])).
Proof.
  intros Hs. split.
  - intros d it Hd Hit. eexists.
    split; [apply (dragEnd_tween_eq c s d it Hs Hd Hit)|].
    split; [reflexivity|].
    rewrite (tween_step_eq _ t c s Hs). destruct s; reflexivity.
  - intros boxes i box Hi Hbox. eexists.
    split; [apply (drop_tween_eq boxes i box c s Hi Hbox Hs)|].
    split; [reflexivity|].
    rewrite (tween_step_eq _ t c s Hs). destruct s; reflexivity.
Qed.

Lemma tween_step_assignments_witness :
  (exists st,
     dragEnd_tween moved_second = Some (st, moved_second, []) /\
     assigned st 0.5 = [Left; Top] /\
     tween_step st 0.5 moved_second =
       Some (EmptyString,
             set_dragItemStyle
               (Some {| DragItemStyle.left := interpolate 370 200 0.5;
                        DragItemStyle.top := interpolate 260 100 0.5;
                        DragItemStyle.width := 80;
                        DragItemStyle.height := 80;
                        DragItemStyle.lineHeight := 80;
                        DragItemStyle.borderRadius := 50 |})
               moved_second,
             [])) /\
  (exists st,
     drop_tween [landing_box] 0 moved_second = Some (st, moved_second, []) /\
     assigned st 0.5 = [Left; Top; Width; Height; LineHeight; BorderRadius] /\
     tween_step st 0.5 moved_second =
       Some (EmptyString,
             set_dragItemStyle
               (Some {| DragItemStyle.left := interpolate 370 500 0.5;
                        DragItemStyle.top := interpolate 260 300 0.5;
                        DragItemStyle.width := interpolate 80 (700 - 500) 0.5;
                        DragItemStyle.height := interpolate 80 (320 - 300) 0.5;
                        DragItemStyle.lineHeight := interpolate 80 20 0.5;
                        DragItemStyle.borderRadius := interpolate 50 0 0.5 |})
               moved_second,
             [])).
Proof.
  pose proof (tween_step_assignments moved_second moved_style 0.5 eq_refl)
    as [Hcancel Hdrop].
  split.
  - exact (Hcancel 1%nat (Item.mk "Item 2" "green" 200 100 None) eq_refl eq_refl).
  - apply (Hdrop [landing_box] 0%Z landing_box); [lia | reflexivity].
Defined.

(** C2 as stated fails for the drag-cancel tween: half way through the
    animation that brings the ghost back from (370, 260) to the tile at
    (200, 100), the step assigns neither width nor height nor borderRadius,
    and the ghost is at (285, 180) with its size and shape as before. *)
Lemma dragEnd_tween_keeps_size_and_shape :
  exists st c',
    dragEnd_tween moved_second = Some (st, moved_second, []) /\
    ~ In Width (assigned st 0.5) /\
    ~ In Height (assigned st 0.5) /\
    ~ In BorderRadius (assigned st 0.5) /\
    dragItemStyle moved_second =
      Some {| DragItemStyle.left := 370; DragItemStyle.top := 260;
              DragItemStyle.width := 80; DragItemStyle.height := 80;
              DragItemStyle.lineHeight := 80; DragItemStyle.borderRadius := 50 |} /\
    tween_step st 0.5 moved_second = Some (EmptyString, c', []) /\
    dragItemStyle c' =
      Some {| DragItemStyle.left := 285; DragItemStyle.top := 180;
              DragItemStyle.width := 80; DragItemStyle.height := 80;
              DragItemStyle.lineHeight := 80; DragItemStyle.borderRadius := 50 |}.
Proof.
  do 2 eexists.
  split; [apply (dragEnd_tween_eq moved_second moved_style 1%nat
                   (Item.mk "Item 2" "green" 200 100 None)); reflexivity|].
  assert (Hno : forall f, f <> Left -> f <> Top ->
                  ~ In f (assigned (fun t =>
                       [(Left, interpolate 370 200 t); (Top, interpolate 260 100 t)]) 0.5)).
  { intros f H1 H2 [H|[H|[]]]; cbn in H; congruence. }
  split; [apply Hno; discriminate|].
  split; [apply Hno; discriminate|].
  split; [apply Hno; discriminate|].
  split; [reflexivity|].
  split; [eapply tween_step_eq; reflexivity|].
  vm_compute. reflexivity.
Qed.




(** * Further properties of the handlers *)

(** ** drop: sizes, repeated drops, and the box of the tween *)

Lemma in_dec_ref (v : option loc) (l : list (option loc)) : {In v l} + {~ In v l}.
Proof. apply in_dec. intros a b. exact (decide (a = b)). Qed.

(** What [drop] removes, whatever the state: one element when there is one. *)
Lemma splice_indexOf_length (l : list (option loc)) (v : option loc) :
  length (splice l (indexOf l v) 1) = Nat.pred (length l).
Proof.
  destruct (in_dec_ref v l) as [Hin|Hnot].
  - destruct (in_first_split l v Hin) as (l1 & l2 & -> & Hfirst).
    unfold indexOf. rewrite (indexOf_from_first l1 l2 v 0 Hfirst), Z.add_0_l.
    rewrite splice_one_at, !length_app. cbn. lia.
  - unfold indexOf. rewrite (indexOf_from_absent l v 0 Hnot).
    destruct l as [|a l]; [reflexivity|].
    rewrite splice_minus_one by discriminate.
    destruct (exists_last (l := a :: l)) as (l' & b & ->); [discriminate|].
    rewrite removelast_last, length_app. cbn. lia.
Qed.

(** The first occurrence of the dragged item and what [splice] leaves. *)
Lemma drop_moves_dragging_split (c : AppComponent) :
  In (dragging c) (draggable c) ->
  exists l1 l2,
    draggable c = l1 ++ dragging c :: l2 /\
    ~ In (dragging c) l1 /\
    splice (draggable c) (indexOf (draggable c) (dragging c)) 1 = l1 ++ l2.
Proof.
  intros Hin. destruct (in_first_split _ _ Hin) as (l1 & l2 & Hsplit & Hnot).
  exists l1, l2. split; [exact Hsplit|]. split; [exact Hnot|].
  unfold indexOf. rewrite Hsplit at 1 2.
  rewrite (indexOf_from_first l1 l2 (dragging c) 0 Hnot). apply splice_one_at.
Qed.

(** X1. [drop] never throws.  It always makes the dropped list one longer,
    and it always makes the draggable list one shorter unless that list is
    empty, whether or not the dragged item is in it. *)
Theorem drop_changes_sizes (event : DragEvent) (c : AppComponent) :
  exists c' fx,
    drop event c = Some (tt, c', fx) /\
    length (dropped c') = S (length (dropped c)) /\
    length (draggable c') = Nat.pred (length (draggable c)) /\
    dragging c' = dragging c /\
    dragItemStyle c' = dragItemStyle c /\
    mouseOffset c' = mouseOffset c /\
    heap c' = heap c.
Proof.
  do 2 eexists. split; [apply drop_eq|]. cbn.
  split; [unfold push; rewrite length_app; cbn; lia|].
  split; [apply splice_indexOf_length|]. repeat split; reflexivity.
Qed.

(** X2. [drop] leaves [dragging] assigned, so a second [drop] before the
    ['end'] listener has run finds the dragged item gone from the draggable
    list: it removes the last of the remaining draggable items instead and
    appends the dragged item to the dropped list a second time. *)
Theorem drop_twice (event1 event2 : DragEvent) (c : AppComponent) :
  NoDup (draggable c) ->
  In (dragging c) (draggable c) ->
  (2 <= length (draggable c))%nat ->
  exists c1 fx1 c2 fx2 l1 l2,
    drop event1 c = Some (tt, c1, fx1) /\
    drop event2 c1 = Some (tt, c2, fx2) /\
    draggable c = l1 ++ dragging c :: l2 /\
    draggable c1 = l1 ++ l2 /\
    draggable c2 = removelast (l1 ++ l2) /\
    dropped c2 = dropped c ++ [dragging c; dragging c].
Proof.
  intros Hnodup Hin Hlen.
  destruct (drop_moves_dragging_split c Hin) as (l1 & l2 & Hsplit & Hnot & Hdr).
  assert (Hnot2 : ~ In (dragging c) (l1 ++ l2)).
  { rewrite Hsplit in Hnodup. apply NoDup_app in Hnodup as (_ & _ & Hnodup).
    apply NoDup_cons in Hnodup as (Hnot2 & _). rewrite list_elem_of_In in Hnot2.
    intros H. apply in_app_or in H as [H|H]; [exact (Hnot H) | exact (Hnot2 H)]. }
  assert (Hne : l1 ++ l2 <> []).
  { intros E. apply (f_equal (@length _)) in E.
    rewrite Hsplit, length_app in Hlen. rewrite length_app in E. cbn in *. lia. }
  exists (set_dropped (push (dropped c) (dragging c))
            (set_draggable (l1 ++ l2) c)).
  do 3 eexists. exists l1, l2.
  split; [rewrite drop_eq, Hdr; reflexivity|].
  split; [apply drop_eq|]. split; [exact Hsplit|]. split; [reflexivity|].
  cbn. unfold indexOf. rewrite (indexOf_from_absent _ _ 0 Hnot2).
  rewrite (splice_minus_one _ Hne). split; [reflexivity|].
  unfold push. now rewrite <- app_assoc.
Qed.

Lemma drop_twice_witness :
  exists c1 fx1 c2 fx2 l1 l2,
    drop (drag_event 400 300 true) dragging_second = Some (tt, c1, fx1) /\
    drop (drag_event 400 300 true) c1 = Some (tt, c2, fx2) /\
    draggable dragging_second = l1 ++ dragging dragging_second :: l2 /\
    draggable c1 = l1 ++ l2 /\
    draggable c2 = removelast (l1 ++ l2) /\
    dropped c2 = dropped dragging_second
                   ++ [dragging dragging_second; dragging dragging_second].
Proof.
  apply (drop_twice (drag_event 400 300 true) (drag_event 400 300 true) dragging_second).
  - change (NoDup [Some 0%nat; Some 1%nat; Some 2%nat]).
    repeat (apply NoDup_cons_2; [intros H; apply list_elem_of_In in H; cbn in H;
      repeat (destruct H as [H|H]; [discriminate H|]); exact H|]).
    apply NoDup_nil_2.
  - right; left; reflexivity.
  - cbn. lia.
Defined.

(** X3. The transition [drop] schedules points at the element it has just
    appended: when the page shows one [.dropped-item] per dropped element
    and a ghost style exists, the tween factory finds the box of the last
    of them and interpolates towards it. *)
Theorem drop_tween_finds_its_box
    (event : DragEvent) (c : AppComponent) (boxes : list DOMRect) (s : DragItemStyle.t) :
  dragItemStyle c = Some s ->
  length boxes = S (length (dropped c)) ->
  exists c' tr box st,
    drop event c = Some (tt, c', [PreventDefault; StartTransition tr]) /\
    tween tr = DropTween (Z.of_nat (length (dropped c))) /\
    dropped c' !! length (dropped c) = Some (dragging c) /\
    last boxes = Some box /\
    tween_factory boxes (tween tr) c' = Some (st, c', []) /\
    forall t,
      st t =
        [(Left, interpolate (DragItemStyle.left s) (box_left box) t);
         (Top, interpolate (DragItemStyle.top s) (box_top box) t);
         (Width, interpolate (DragItemStyle.width s) (box_right box - box_left box) t);
         (Height, interpolate (DragItemStyle.height s) (box_bottom box - box_top box) t);
         (LineHeight, interpolate (DragItemStyle.lineHeight s) 20 t);
         (BorderRadius, interpolate (DragItemStyle.borderRadius s) 0 t)].
Proof.
  intros Hs Hlen.
  destruct (last boxes) as [box|] eqn:Hlast.
  2:{ apply last_None in Hlast. subst boxes. discriminate Hlen. }
  assert (Hbox : boxes !! length (dropped c) = Some box).
  { rewrite last_lookup, Hlen in Hlast. exact Hlast. }
  do 2 eexists. exists box. eexists.
  split; [apply drop_eq|]. cbn [tween].
  assert (Hidx : (Z.of_nat (length (push (dropped c) (dragging c))) - 1
                  = Z.of_nat (length (dropped c)))%Z).
  { unfold push. rewrite length_app. cbn. lia. }
  rewrite Hidx. split; [reflexivity|].
  split; [cbn; unfold push; apply list_lookup_middle; reflexivity|].
  split; [reflexivity|].
  split; [|reflexivity].
  cbn [tween_factory].
  apply drop_tween_eq; [lia | rewrite Nat2Z.id; exact Hbox | exact Hs].
Qed.

Lemma drop_tween_finds_its_box_witness :
  exists c' tr box st,
    drop (drag_event 400 300 true) moved_second
      = Some (tt, c', [PreventDefault; StartTransition tr]) /\
    tween tr = DropTween (Z.of_nat (length (dropped moved_second))) /\
    dropped c' !! length (dropped moved_second) = Some (dragging moved_second) /\
    last [landing_box] = Some box /\
    tween_factory [landing_box] (tween tr) c' = Some (st, c', []) /\
    forall t,
      st t =
        [(Left, interpolate (DragItemStyle.left moved_style) (box_left box) t);
         (Top, interpolate (DragItemStyle.top moved_style) (box_top box) t);
         (Width, interpolate (DragItemStyle.width moved_style)
                   (box_right box - box_left box) t);
         (Height, interpolate (DragItemStyle.height moved_style)
                    (box_bottom box - box_top box) t);
         (LineHeight, interpolate (DragItemStyle.lineHeight moved_style) 20 t);
         (BorderRadius, interpolate (DragItemStyle.borderRadius moved_style) 0 t)].
Proof.
  apply (drop_tween_finds_its_box (drag_event 400 300 true) moved_second
           [landing_box] moved_style); reflexivity.
Defined.

(** ** The tween factories and steps: when they throw, what they touch *)






(** ** The ['end'] listeners *)

Lemma set_item_visible_eq (item : loc) (v : bool) (c : AppComponent) :
  set_item_visible item v c =
    match heap c !! item with
    | Some it => Some (tt, set_heap (<[item := Item.set_visible v it]> (heap c)) c, [])
    | None => None
    end.
Proof. reflexivity. Qed.

(** X6. An ['end'] listener that completes makes its item visible, touches
    no other item, leaves the lists, the ghost style and the mouse offset
    alone and ends the drag.  After it a [dragStart] is accepted again,
    while a drop listener or a drag-cancel tween factory that runs next
    throws, since no item is dragged any more. *)
Theorem end_listener_ends_drag (k : EndListener) (c c' : AppComponent) (fx : list Effect) :
  end_listener k c = Some (tt, c', fx) ->
  fx = [] /\
  dragging c' = None /\
  draggable c' = draggable c /\
  dropped c' = dropped c /\
  dragItemStyle c' = dragItemStyle c /\
  mouseOffset c' = mouseOffset c /\
  (exists i it,
     match k with DragEndEnd item => i = item | DropEnd => dragging c = Some i end /\
     heap c !! i = Some it /\
     heap c' = <[i := Item.set_visible true it]> (heap c)) /\
  end_listener DropEnd c' = None /\
  dragEnd_tween c' = None /\
  (forall event item it',
     heap c' !! item = Some it' ->
     exists c'' fx', dragStart event item c' = Some (None, c'', fx') /\
                     dragging c'' = Some item).
Proof.
  intros Hrun.
  assert (Hshape : exists i it,
            match k with DragEndEnd item => i = item | DropEnd => dragging c = Some i end /\
            heap c !! i = Some it /\
            c' = set_dragging None
                   (set_heap (<[i := Item.set_visible true it]> (heap c)) c) /\
            fx = []).
  { destruct k as [item|]; cbn [end_listener] in Hrun; unfold bind, this in Hrun.
    - rewrite set_item_visible_eq in Hrun.
      destruct (heap c !! item) as [it|] eqn:Hit; [|discriminate].
      cbn in Hrun. injection Hrun as <- <-. now exists item, it.
    - destruct (dragging c) as [d|] eqn:Hd; [|discriminate].
      rewrite set_item_visible_eq in Hrun.
      destruct (heap c !! d) as [it|] eqn:Hit; [|discriminate].
      cbn in Hrun. injection Hrun as <- <-. now exists d, it. }
  destruct Hshape as (i & it & Hk & Hit & -> & ->).
  repeat (split; [reflexivity|]).
  split; [now exists i, it|].
  split; [reflexivity|].
  split.
  - unfold dragEnd_tween, bind, style, this, deref. cbn.
    destruct (dragItemStyle c); reflexivity.
  - intros event item it' Hit'. do 2 eexists.
    split; [apply (dragStart_eq event item _ it'); [reflexivity | exact Hit']|].
    reflexivity.
Qed.

Lemma end_listener_ends_drag_witness :
  exists c',
    end_listener DropEnd moved_second = Some (tt, c', []) /\
    dragging c' = None /\
    end_listener DropEnd c' = None /\
    dragEnd_tween c' = None /\
    exists c'' fx',
      dragStart (drag_event 120 130 true) 0%nat c' = Some (None, c'', fx') /\
      dragging c'' = Some 0%nat.
Proof.
  eexists. split; [reflexivity|].
  destruct (end_listener_ends_drag DropEnd moved_second _ [] eq_refl)
    as (_ & Hd & _ & _ & _ & _ & _ & Hdrop & Htween & Hstart).
  split; [exact Hd|]. split; [exact Hdrop|]. split; [exact Htween|].
  exact (Hstart (drag_event 120 130 true) 0%nat
           (Item.mk "Item 1" "red" 100 100 None) eq_refl).
Defined.

(** ** dragStart in the two kinds of browser *)

(** X7. With [setDragImage] the tile is still visible when [dragStart]
    returns and is hidden by the task it schedules; without it the tile is
    hidden at once.  Once the task has run the component is the same in
    both cases; no other item is touched. *)
Theorem dragStart_hides_item
    (e_chrome e_ie : DragEvent) (item : loc) (c : AppComponent) (it : Item.t) :
  dragging c = None ->
  heap c !! item = Some it ->
  hasSetDragImage e_chrome = true ->
  hasSetDragImage e_ie = false ->
  pageX e_chrome = pageX e_ie ->
  pageY e_chrome = pageY e_ie ->
  exists c_chrome c_ie,
    dragStart e_chrome item c =
      Some (None, c_chrome,
            [SetData "text" (Item.text it); SetEffectAllowed "move";
             SetDragImage ".drag-dummy" 0 0; SetTimeout (HideItem item) 0]) /\
    dragStart e_ie item c =
      Some (None, c_ie, [SetData "text" (Item.text it); SetEffectAllowed "move"]) /\
    heap c_chrome = heap c /\
    heap c_ie = <[item := Item.set_visible false it]> (heap c) /\
    run_task (HideItem item) c_chrome = Some (tt, c_ie, []).
Proof.
  intros Hfree Hit Hch Hie HX HY. do 2 eexists.
  split; [rewrite (dragStart_eq e_chrome item c it Hfree Hit), Hch; reflexivity|].
  split; [rewrite (dragStart_eq e_ie item c it Hfree Hit), Hie; reflexivity|].
  split; [reflexivity|]. split; [reflexivity|].
  cbn [run_task]. rewrite set_item_visible_eq. cbn. rewrite Hit, HX, HY. reflexivity.
Qed.

Lemma dragStart_hides_item_witness :
  exists c_chrome c_ie,
    dragStart (drag_event 230 140 true) 1%nat initialised =
      Some (None, c_chrome,
            [SetData "text" "Item 2"; SetEffectAllowed "move";
             SetDragImage ".drag-dummy" 0 0; SetTimeout (HideItem 1%nat) 0]) /\
    dragStart (drag_event 230 140 false) 1%nat initialised =
      Some (None, c_ie, [SetData "text" "Item 2"; SetEffectAllowed "move"]) /\
    heap c_chrome = heap initialised /\
    heap c_ie = <[1%nat := Item.set_visible false (Item.mk "Item 2" "green" 200 100 None)]>
                  (heap initialised) /\
    run_task (HideItem 1%nat) c_chrome = Some (tt, c_ie, []).
Proof.
  exact (dragStart_hides_item (drag_event 230 140 true) (drag_event 230 140 false)
           1%nat initialised (Item.mk "Item 2" "green" 200 100 None)
           eq_refl eq_refl eq_refl eq_refl eq_refl eq_refl).
Defined.

(** [dragStart] on a reference that points to no item: the read of
    [item.text] throws before anything is done. *)
Lemma dragStart_unknown_item (event : DragEvent) (item : loc) (c : AppComponent) :
  dragging c = None -> heap c !! item = None -> dragStart event item c = None.
Proof.
  intros Hfree Hit. unfold dragStart, bind, this, deref. rewrite Hfree, Hit. reflexivity.
Qed.

(** ** moveDragElement *)

(** X8. [moveDragElement] does nothing when no drag is in progress and
    throws exactly when an item is dragged but there is no ghost style.
    The position it gives the ghost depends on the last event only: after
    any earlier move, a move does what it would have done without it. *)
Theorem moveDragElement_last_wins (event : DragEvent) (c : AppComponent) :
  (dragging c = None -> moveDragElement event c = Some (tt, c, [])) /\
  (moveDragElement event c = None <-> dragging c <> None /\ dragItemStyle c = None) /\
  (forall earlier c1 fx1,
     moveDragElement earlier c = Some (tt, c1, fx1) ->
     fx1 = [] /\
     mouseOffset c1 = mouseOffset c /\
     moveDragElement event c1 = moveDragElement event c).
Proof.
  split; [|split].
  - intros Hd. unfold moveDragElement, bind, this. rewrite Hd. reflexivity.
  - destruct (dragging c) as [d|] eqn:Hd.
    + destruct (dragItemStyle c) as [s|] eqn:Hs.
      * rewrite (moveDragElement_eq event c d s Hd Hs).
        split; [discriminate | intros [_ H]; discriminate H].
      * unfold moveDragElement, bind, this, assign. rewrite Hd. cbn. rewrite Hs.
        split; [intros _; split; [discriminate | reflexivity] | reflexivity].
    + unfold moveDragElement, bind, this. rewrite Hd. cbn.
      split; [discriminate | intros [H _]; congruence].
  - intros earlier c1 fx1 Hmove.
    destruct (dragging c) as [d|] eqn:Hd.
    + destruct (dragItemStyle c) as [s|] eqn:Hs.
      * rewrite (moveDragElement_eq earlier c d s Hd Hs) in Hmove.
        injection Hmove as <- <-. split; [reflexivity|]. split; [reflexivity|].
        erewrite (moveDragElement_eq event _ d) by (cbn; first [exact Hd | reflexivity]).
        rewrite (moveDragElement_eq event c d s Hd Hs). reflexivity.
      * unfold moveDragElement, bind, this, assign in Hmove. rewrite Hd in Hmove.
        cbn in Hmove. rewrite Hs in Hmove. discriminate Hmove.
    + unfold moveDragElement, bind, this in Hmove. rewrite Hd in Hmove.
      cbn in Hmove. injection Hmove as <- <-. repeat split; reflexivity.
Qed.

(** ** Whole-pixel positions *)

Section WholePixels.
Local Open Scope Z_scope.

Lemma small_53 n : Z.abs n < 2 ^ 51 -> Z.abs n < 2 ^ 53.
Proof.
  change (2 ^ 51) with 2251799813685248. change (2 ^ 53) with 9007199254740992. lia.
Qed.

Lemma small_52 n : Z.abs n < 2 ^ 51 -> Z.abs n < 2 ^ 52.
Proof.
  change (2 ^ 51) with 2251799813685248. change (2 ^ 52) with 4503599627370496. lia.
Qed.

Lemma small_sub_52 a b : Z.abs a < 2 ^ 51 -> Z.abs b < 2 ^ 51 -> Z.abs (a - b) < 2 ^ 52.
Proof.
  change (2 ^ 51) with 2251799813685248. change (2 ^ 52) with 4503599627370496. lia.
Qed.

(** The ghost position after a move: [q - (p - l)] is [l + (q - p)]. *)
Lemma of_int_offset q p l :
  Z.abs q < 2 ^ 51 -> Z.abs p < 2 ^ 51 -> Z.abs l < 2 ^ 51 ->
  (of_int q - (of_int p - of_int l))%float = of_int (l + (q - p)).
Proof.
  intros Hq Hp Hl.
  pose proof (small_sub_52 p l Hp Hl) as Hpl.
  change (2 ^ 51) with 2251799813685248 in *.
  change (2 ^ 52) with 4503599627370496 in *.
  assert (E53 : 2 ^ 53 = 9007199254740992) by reflexivity.
  rewrite !of_int_sub by (rewrite E53; lia). f_equal. lia.
Qed.

Lemma of_int_sub_small a b :
  Z.abs a < 2 ^ 51 -> Z.abs b < 2 ^ 51 ->
  (of_int a - of_int b)%float = of_int (a - b).
Proof.
  intros Ha Hb. change (2 ^ 51) with 2251799813685248 in *.
  assert (E53 : 2 ^ 53 = 9007199254740992) by reflexivity.
  apply of_int_sub; rewrite E53; lia.
Qed.

End WholePixels.

Lemma set_dragItemStyle_same (c : AppComponent) (s : DragItemStyle.t) :
  dragItemStyle c = Some s -> set_dragItemStyle (Some s) c = c.
Proof. destruct c; cbn. now intros ->. Qed.

(** X9. With whole-pixel coordinates below 2^51 the ghost follows the
    pointer: after a drag started at [(px, py)] on a tile at [(l, t)], a
    move to [(qx, qy)] puts the ghost at [(l + (qx - px), t + (qy - py))]
    and leaves its size and shape as [dragStart] set them. *)
Theorem ghost_follows_pointer
    (start move : DragEvent) (item : loc) (c : AppComponent) (it : Item.t)
    (px py qx qy l t : Z) :
  dragging c = None ->
  heap c !! item = Some it ->
  pageX start = of_int px -> pageY start = of_int py ->
  pageX move = of_int qx -> pageY move = of_int qy ->
  Item.left it = of_int l -> Item.top it = of_int t ->
  (Z.abs px < 2 ^ 51)%Z -> (Z.abs py < 2 ^ 51)%Z ->
  (Z.abs qx < 2 ^ 51)%Z -> (Z.abs qy < 2 ^ 51)%Z ->
  (Z.abs l < 2 ^ 51)%Z -> (Z.abs t < 2 ^ 51)%Z ->
  exists c1 fx c2,
    dragStart start item c = Some (None, c1, fx) /\
    moveDragElement move c1 = Some (tt, c2, []) /\
    dragItemStyle c2 =
      Some (style_of_ints (l + (qx - px)) (t + (qy - py)) 80 80 80 50).
Proof.
  intros Hfree Hit Hpx Hpy Hqx Hqy Hl Ht Bpx Bpy Bqx Bqy Bl Bt.
  do 3 eexists. split; [apply (dragStart_eq start item c it Hfree Hit)|].
  split; [eapply (moveDragElement_eq move _ item); reflexivity|].
  cbn. rewrite Hpx, Hpy, Hqx, Hqy, Hl, Ht.
  rewrite !of_int_offset by assumption. reflexivity.
Qed.

Lemma ghost_follows_pointer_witness :
  exists c1 fx c2,
    dragStart (drag_event 230 140 true) 1%nat initialised = Some (None, c1, fx) /\
    moveDragElement (drag_event 400 300 true) c1 = Some (tt, c2, []) /\
    dragItemStyle c2 = Some (style_of_ints (200 + (400 - 230)) (100 + (300 - 140)) 80 80 80 50).
Proof.
  exact (ghost_follows_pointer (drag_event 230 140 true) (drag_event 400 300 true)
           1%nat initialised (Item.mk "Item 2" "green" 200 100 None)
           230 140 400 300 200 100
           eq_refl eq_refl eq_refl eq_refl eq_refl eq_refl eq_refl eq_refl
           eq_refl eq_refl eq_refl eq_refl eq_refl eq_refl).
Defined.

(** ** First and last frame of the two animations *)

Ltac run_step c s Hs :=
  rewrite (tween_step_eq _ _ c s Hs);
  cbn [fold_left fst snd DragItemStyle.set style_of_ints box_of_ints
       DragItemStyle.left DragItemStyle.top DragItemStyle.width DragItemStyle.height
       DragItemStyle.lineHeight DragItemStyle.borderRadius
       box_left box_top box_right box_bottom].

(** X10. With whole-pixel numbers below 2^51, the drop tween starts on the
    ghost as it is (the step at progress 0 changes nothing) and its last
    step (progress 1) gives the ghost exactly the rectangle of the target
    box, with lineHeight 20 and borderRadius 0. *)
Theorem drop_tween_lands_on_box
    (boxes : list DOMRect) (i : Z) (c : AppComponent)
    (sl st sw sh slh sr bl bt br bb : Z) :
  (0 <= i)%Z ->
  boxes !! Z.to_nat i = Some (box_of_ints bl bt br bb) ->
  dragItemStyle c = Some (style_of_ints sl st sw sh slh sr) ->
  (Z.abs sl < 2 ^ 51)%Z -> (Z.abs st < 2 ^ 51)%Z -> (Z.abs sw < 2 ^ 51)%Z ->
  (Z.abs sh < 2 ^ 51)%Z -> (Z.abs slh < 2 ^ 51)%Z -> (Z.abs sr < 2 ^ 51)%Z ->
  (Z.abs bl < 2 ^ 51)%Z -> (Z.abs bt < 2 ^ 51)%Z ->
  (Z.abs br < 2 ^ 51)%Z -> (Z.abs bb < 2 ^ 51)%Z ->
  exists step,
    tween_factory boxes (DropTween i) c = Some (step, c, []) /\
    tween_step step 0 c = Some (EmptyString, c, []) /\
    tween_step step 1 c =
      Some (EmptyString,
            set_dragItemStyle (Some (style_of_ints bl bt (br - bl) (bb - bt) 20 0)) c,
            []).
Proof.
  intros Hi Hbox Hs Bsl Bst Bsw Bsh Bslh Bsr Bbl Bbt Bbr Bbb.
  eexists. split; [apply (drop_tween_eq boxes i _ c _ Hi Hbox Hs)|].
  assert (Hw : (of_int br - of_int bl)%float = of_int (br - bl))
    by now apply of_int_sub_small.
  assert (Hh : (of_int bb - of_int bt)%float = of_int (bb - bt))
    by now apply of_int_sub_small.
  assert (B20 : (Z.abs 20 < 2 ^ 52)%Z) by reflexivity.
  assert (B0 : (Z.abs 0 < 2 ^ 52)%Z) by reflexivity.
  split.
  - run_step c (style_of_ints sl st sw sh slh sr) Hs.
    rewrite Hw, Hh.
    change (interpolate (of_int slh) 20) with (interpolate (of_int slh) (of_int 20)).
    change (interpolate (of_int sr) 0) with (interpolate (of_int sr) (of_int 0)).
    rewrite !interpolate_start_int
      by first [assumption | now apply small_52 | now apply small_sub_52].
    pose proof (set_dragItemStyle_same c _ Hs) as E.
    unfold style_of_ints in E. now rewrite E.
  - run_step c (style_of_ints sl st sw sh slh sr) Hs.
    rewrite Hw, Hh.
    change (interpolate (of_int slh) 20) with (interpolate (of_int slh) (of_int 20)).
    change (interpolate (of_int sr) 0) with (interpolate (of_int sr) (of_int 0)).
    rewrite !interpolate_end_int
      by first [assumption | now apply small_52 | now apply small_sub_52].
    reflexivity.
Qed.

Lemma drop_tween_lands_on_box_witness :
  exists step,
    tween_factory [landing_box] (DropTween 0) moved_second = Some (step, moved_second, []) /\
    tween_step step 0 moved_second = Some (EmptyString, moved_second, []) /\
    tween_step step 1 moved_second =
      Some (EmptyString,
            set_dragItemStyle (Some (style_of_ints 500 300 (700 - 500) (320 - 300) 20 0))
              moved_second,
            []).
Proof.
  exact (drop_tween_lands_on_box [landing_box] 0 moved_second
           370 260 80 80 80 50 500 300 700 320
           (Z.le_refl 0) eq_refl eq_refl
           eq_refl eq_refl eq_refl eq_refl eq_refl eq_refl
           eq_refl eq_refl eq_refl eq_refl).
Defined.

(** X11. With whole-pixel positions below 2^52, the drag-cancel tween
    starts on the ghost as it is and its last step puts the ghost exactly
    on the dragged tile, with its size and shape untouched. *)
Theorem dragEnd_tween_returns_to_tile
    (boxes : list DOMRect) (c : AppComponent) (d : loc) (it : Item.t)
    (s : DragItemStyle.t) (sl st l t : Z) :
  dragging c = Some d ->
  heap c !! d = Some it ->
  dragItemStyle c = Some s ->
  DragItemStyle.left s = of_int sl -> DragItemStyle.top s = of_int st ->
  Item.left it = of_int l -> Item.top it = of_int t ->
  (Z.abs sl < 2 ^ 52)%Z -> (Z.abs st < 2 ^ 52)%Z ->
  (Z.abs l < 2 ^ 52)%Z -> (Z.abs t < 2 ^ 52)%Z ->
  exists step,
    tween_factory boxes DragEndTween c = Some (step, c, []) /\
    tween_step step 0 c = Some (EmptyString, c, []) /\
    tween_step step 1 c =
      Some (EmptyString,
            set_dragItemStyle
              (Some {| DragItemStyle.left := Item.left it;
                       DragItemStyle.top := Item.top it;
                       DragItemStyle.width := DragItemStyle.width s;
                       DragItemStyle.height := DragItemStyle.height s;
                       DragItemStyle.lineHeight := DragItemStyle.lineHeight s;
                       DragItemStyle.borderRadius := DragItemStyle.borderRadius s |}) c,
            []).
Proof.
  intros Hd Hit Hs Hsl Hst Hl Ht Bsl Bst Bl Bt.
  eexists. split; [apply (dragEnd_tween_eq c s d it Hs Hd Hit)|].
  destruct s as [s_left s_top s_width s_height s_lineHeight s_borderRadius].
  cbn in Hsl, Hst. subst s_left s_top. rewrite Hl, Ht. split.
  - rewrite (tween_step_eq _ _ c _ Hs). cbn [fold_left fst snd DragItemStyle.set
      DragItemStyle.left DragItemStyle.top DragItemStyle.width DragItemStyle.height
      DragItemStyle.lineHeight DragItemStyle.borderRadius].
    rewrite !interpolate_start_int by assumption.
    now rewrite (set_dragItemStyle_same c _ Hs).
  - rewrite (tween_step_eq _ _ c _ Hs). cbn [fold_left fst snd DragItemStyle.set
      DragItemStyle.left DragItemStyle.top DragItemStyle.width DragItemStyle.height
      DragItemStyle.lineHeight DragItemStyle.borderRadius].
    rewrite !interpolate_end_int by assumption. reflexivity.
Qed.

Lemma dragEnd_tween_returns_to_tile_witness :
  exists step,
    tween_factory [] DragEndTween moved_second = Some (step, moved_second, []) /\
    tween_step step 0 moved_second = Some (EmptyString, moved_second, []) /\
    tween_step step 1 moved_second =
      Some (EmptyString,
            set_dragItemStyle
              (Some {| DragItemStyle.left := 200; DragItemStyle.top := 100;
                       DragItemStyle.width := 80; DragItemStyle.height := 80;
                       DragItemStyle.lineHeight := 80;
                       DragItemStyle.borderRadius := 50 |}) moved_second,
            []).
Proof.
  exact (dragEnd_tween_returns_to_tile [] moved_second 1%nat
           (Item.mk "Item 2" "green" 200 100 None) moved_style 370 260 200 100
           eq_refl eq_refl eq_refl eq_refl eq_refl eq_refl eq_refl
           eq_refl eq_refl eq_refl eq_refl).
Defined.


(** ** What holds after any sequence of calls *)

Lemma same_tile_refl (it : Item.t) : same_tile it it.
Proof. repeat split. Qed.

Lemma heap_extends_refl (h : list Item.t) : heap_extends h h.
Proof. intros i it Hi. exists it. split; [exact Hi | apply same_tile_refl]. Qed.

Lemma heap_extends_trans (h1 h2 h3 : list Item.t) :
  heap_extends h1 h2 -> heap_extends h2 h3 -> heap_extends h1 h3.
Proof.
  intros H12 H23 i it Hi.
  destruct (H12 i it Hi) as (it2 & Hi2 & (E1 & E2 & E3 & E4)).
  destruct (H23 i it2 Hi2) as (it3 & Hi3 & (F1 & F2 & F3 & F4)).
  exists it3. split; [exact Hi3|]. repeat split; congruence.
Qed.

Lemma heap_extends_app (h more : list Item.t) : heap_extends h (h ++ more).
Proof.
  intros i it Hi. exists it. split; [|apply same_tile_refl].
  now apply lookup_app_l_Some.
Qed.

Lemma heap_extends_visible (h : list Item.t) (j : loc) (itj : Item.t) (v : bool) :
  h !! j = Some itj -> heap_extends h (<[j := Item.set_visible v itj]> h).
Proof.
  unfold loc in *. intros Hj i it Hi. destruct (decide (j = i)) as [->|Hne].
  - exists (Item.set_visible v itj). split.
    + apply list_lookup_insert_eq. eapply lookup_lt_Some; eassumption.
    + rewrite Hj in Hi. injection Hi as <-. repeat split.
  - exists it. split; [|apply same_tile_refl].
    rewrite list_lookup_insert_ne by exact Hne. exact Hi.
Qed.

(** A step on a component without ghost style throws or, when it assigns
    nothing, does nothing. *)
Lemma tween_step_no_style (st : Step) (t : number) (c : AppComponent) :
  dragItemStyle c = None ->
  tween_step st t c = None \/ tween_step st t c = Some (EmptyString, c, []).
Proof.
  intros Hs. unfold tween_step, bind. destruct (st t) as [|fv fvs].
  - right. reflexivity.
  - left. cbn [assign_all]. unfold bind, assign. rewrite Hs. reflexivity.
Qed.

(** What one call can do to the store, the ghost style and [dragging]. *)
(** The two handlers that never change the component. *)
Lemma dragStart_busy (event : DragEvent) (item : loc) (c : AppComponent) (d : loc) :
  dragging c = Some d -> dragStart event item c = Some (Some false, c, []).
Proof. intros Hd. unfold dragStart, bind, this. rewrite Hd. reflexivity. Qed.

Lemma dragOver_eq (event : DragEvent) (c : AppComponent) :
  dragOver event c =
    Some (tt, c, match dragging c with Some _ => [PreventDefault] | None => [] end).
Proof. unfold dragOver, bind, this. destruct (dragging c); reflexivity. Qed.

Lemma after_dragStart (event : DragEvent) (item : loc) (c : AppComponent) :
  after (CallDragStart event item) c =
    match dragStart event item c with Some (_, c', _) => c' | None => c end.
Proof.
  unfold after, call, bind. destruct (dragStart event item c) as [[[r c'] fx]|]; reflexivity.
Qed.

Lemma after_tween_step (st : Step) (t : number) (c : AppComponent) :
  after (CallTweenStep st t) c =
    match tween_step st t c with Some (_, c', _) => c' | None => c end.
Proof.
  unfold after, call, bind. destruct (tween_step st t c) as [[[r c'] fx]|]; reflexivity.
Qed.

Ltac component_unchanged :=
  split; [apply heap_extends_refl
         | split; [tauto | left; first [reflexivity | congruence]]].

Lemma after_effect (k : Call) (c : AppComponent) :
  heap_extends (heap c) (heap (after k c)) /\
  (dragItemStyle c <> None -> dragItemStyle (after k c) <> None) /\
  (dragging (after k c) = dragging c \/
   dragging (after k c) = None \/
   drag_ready (after k c) = true).
Proof.
  destruct k as [|event item|event item|event|event|event|task|st t|k].
  - unfold after, call. rewrite ngOnInit_eq. cbn. split; [|split; [tauto | now left]].
    rewrite <- !app_assoc. apply heap_extends_app.
  - rewrite after_dragStart. destruct (dragging c) as [d|] eqn:Hd.
    + rewrite (dragStart_busy event item c d Hd). rewrite <- Hd. component_unchanged.
    + destruct (heap c !! item) as [it|] eqn:Hit.
      * rewrite (dragStart_eq event item c it Hd Hit). cbn.
        split; [|split; [discriminate|]].
        -- destruct (hasSetDragImage event);
             [apply heap_extends_refl | now apply heap_extends_visible].
        -- right; right. unfold drag_ready. cbn.
           destruct (hasSetDragImage event); [now rewrite Hit|].
           rewrite list_lookup_insert_eq by (eapply lookup_lt_Some; eassumption).
           reflexivity.
      * rewrite (dragStart_unknown_item event item c Hd Hit). rewrite <- Hd.
        component_unchanged.
  - unfold after, call. cbn. component_unchanged.
  - unfold after, call. rewrite dragOver_eq. component_unchanged.
  - unfold after, call. rewrite drop_eq. cbn. component_unchanged.
  - unfold after, call.
    destruct (moveDragElement event c) as [[[u c1] fx1]|] eqn:Hmove;
      [|component_unchanged].
    destruct (dragging c) as [d|] eqn:Hd.
    + destruct (dragItemStyle c) as [s|] eqn:Hs.
      * rewrite (moveDragElement_eq event c d s Hd Hs) in Hmove.
        injection Hmove as _ <- _. cbn.
        split; [apply heap_extends_refl|]. split; [discriminate | now left].
      * unfold moveDragElement, bind, this, assign in Hmove. rewrite Hd in Hmove.
        cbn in Hmove. rewrite Hs in Hmove. discriminate Hmove.
    + unfold moveDragElement, bind, this in Hmove. rewrite Hd in Hmove.
      cbn in Hmove. injection Hmove as _ <- _. component_unchanged.
  - unfold after, call. destruct task as [item]. cbn [run_task].
    rewrite set_item_visible_eq.
    destruct (heap c !! item) as [it|] eqn:Hit; [|component_unchanged]. cbn.
    split; [now apply heap_extends_visible|]. split; [tauto | now left].
  - rewrite after_tween_step.
    destruct (tween_step st t c) as [[[u c1] fx1]|] eqn:Hstep; [|component_unchanged].
    destruct (dragItemStyle c) as [s|] eqn:Hs.
    + rewrite (tween_step_eq st t c s Hs) in Hstep. injection Hstep as _ <- _. cbn.
      split; [apply heap_extends_refl|]. split; [discriminate | now left].
    + destruct (tween_step_no_style st t c Hs) as [E|E]; rewrite E in Hstep;
        [discriminate Hstep|]. injection Hstep as _ <- _. component_unchanged.
  - unfold after, call.
    destruct (end_listener k c) as [[[u c1] fx1]|] eqn:Hend; [|component_unchanged].
    destruct k as [item|]; cbn [end_listener] in Hend; unfold bind, this in Hend.
    + rewrite set_item_visible_eq in Hend.
      destruct (heap c !! item) as [it|] eqn:Hit; [|discriminate Hend].
      cbn in Hend. injection Hend as _ <- _. cbn.
      split; [now apply heap_extends_visible|]. split; [tauto | right; now left].
    + destruct (dragging c) as [d|] eqn:Hd; [|discriminate Hend].
      rewrite set_item_visible_eq in Hend.
      destruct (heap c !! d) as [it|] eqn:Hit; [|discriminate Hend].
      cbn in Hend. injection Hend as _ <- _. cbn.
      split; [now apply heap_extends_visible|]. split; [tauto | right; now left].
Qed.

Lemma drag_ready_after (k : Call) (c : AppComponent) :
  drag_ready c = true -> drag_ready (after k c) = true.
Proof.
  intros Hready. destruct (after_effect k c) as (Hheap & Hstyle & [Hd|[Hd|Hd]]).
  - unfold drag_ready in *. rewrite Hd.
    destruct (dragging c) as [d|]; [|reflexivity].
    destruct (dragItemStyle c) as [s|] eqn:Hs; [|discriminate Hready].
    destruct (heap c !! d) as [it|] eqn:Hit; [|discriminate Hready].
    destruct (Hheap d it Hit) as (it' & Hit' & _).
    unfold loc in *. rewrite Hit'.
    destruct (dragItemStyle (after k c)); [reflexivity|].
    exfalso. apply Hstyle; [discriminate | reflexivity].
  - unfold drag_ready. now rewrite Hd.
  - exact Hd.
Qed.

Lemma drag_ready_after_all (ks : list Call) (c : AppComponent) :
  drag_ready c = true -> drag_ready (after_all ks c) = true.
Proof.
  revert c. induction ks as [|k ks IH]; intros c Hready; [exact Hready|].
  cbn [after_all fold_left]. apply IH, drag_ready_after, Hready.
Qed.

(** X13. Whatever calls are made on the component, in any order and with
    any arguments, starting from a component in which a dragged item has a
    ghost style (as the new component has): a dragged item always has a
    ghost style and a tile behind it.  So [moveDragElement] never throws,
    and while an item is dragged the drag-cancel tween factory and the drop
    listener complete. *)
Theorem calls_keep_drag_ready (ks : list Call) (c : AppComponent) :
  drag_ready c = true ->
  drag_ready (after_all ks c) = true /\
  (forall event, exists c', moveDragElement event (after_all ks c) = Some (tt, c', [])) /\
  (forall d,
     dragging (after_all ks c) = Some d ->
     (exists st, dragEnd_tween (after_all ks c) = Some (st, after_all ks c, [])) /\
     (exists c', end_listener DropEnd (after_all ks c) = Some (tt, c', []))).
Proof.
  intros Hready. pose proof (drag_ready_after_all ks c Hready) as H.
  set (c1 := after_all ks c) in *. split; [exact H|].
  unfold drag_ready in H. split.
  - intros event. destruct (dragging c1) as [d|] eqn:Hd.
    + destruct (dragItemStyle c1) as [s|] eqn:Hs; [|discriminate H].
      eexists. apply (moveDragElement_eq event c1 d s Hd Hs).
    + exists c1. unfold moveDragElement, bind, this. rewrite Hd. reflexivity.
  - intros d Hd. rewrite Hd in H.
    destruct (dragItemStyle c1) as [s|] eqn:Hs; [|discriminate H].
    destruct (heap c1 !! d) as [it|] eqn:Hit; [|discriminate H]. split.
    + eexists. apply (dragEnd_tween_eq c1 s d it Hs Hd Hit).
    + eexists. cbn [end_listener]. unfold bind, this. rewrite Hd.
      rewrite set_item_visible_eq, Hit. reflexivity.
Qed.

Lemma calls_keep_drag_ready_witness :
  drag_ready
    (after_all [CallMoveDragElement (drag_event 5 5 true); CallNgOnInit;
                CallEnd DropEnd; CallDragStart (drag_event 230 140 false) 1%nat;
                CallDragStart (drag_event 120 130 true) 0%nat;
                CallDrop (drag_event 400 300 true); CallDrop (drag_event 400 300 true)]
       new_AppComponent) = true /\
  (forall event, exists c',
     moveDragElement event
       (after_all [CallMoveDragElement (drag_event 5 5 true); CallNgOnInit;
                   CallEnd DropEnd; CallDragStart (drag_event 230 140 false) 1%nat;
                   CallDragStart (drag_event 120 130 true) 0%nat;
                   CallDrop (drag_event 400 300 true); CallDrop (drag_event 400 300 true)]
          new_AppComponent) = Some (tt, c', [])).
Proof.
  destruct (calls_keep_drag_ready
              [CallMoveDragElement (drag_event 5 5 true); CallNgOnInit;
               CallEnd DropEnd; CallDragStart (drag_event 230 140 false) 1%nat;
               CallDragStart (drag_event 120 130 true) 0%nat;
               CallDrop (drag_event 400 300 true); CallDrop (drag_event 400 300 true)]
              new_AppComponent eq_refl) as (H1 & H2 & _).
  split; [exact H1 | exact H2].
Defined.

(** X14. No call ever changes the text, the colour or the position of an
    item, or removes an item from the store: after any sequence of calls
    every item is still there, at most its visibility differs. *)
Theorem calls_keep_tiles (ks : list Call) (c : AppComponent) (i : loc) (it : Item.t) :
  heap c !! i = Some it ->
  exists it',
    heap (after_all ks c) !! i = Some it' /\
    Item.text it' = Item.text it /\
    Item.color it' = Item.color it /\
    Item.left it' = Item.left it /\
    Item.top it' = Item.top it.
Proof.
  assert (H : heap_extends (heap c) (heap (after_all ks c))).
  { revert c. induction ks as [|k ks IH]; intros c; [apply heap_extends_refl|].
    cbn [after_all fold_left].
    eapply heap_extends_trans; [apply (after_effect k c) | apply IH]. }
  intros Hi. destruct (H i it Hi) as (it' & Hi' & E1 & E2 & E3 & E4).
  exists it'. repeat split; [exact Hi' | congruence ..].
Qed.

Lemma calls_keep_tiles_witness :
  exists it',
    heap (after_all [CallDragStart (drag_event 230 140 false) 1%nat;
                     CallMoveDragElement (drag_event 400 300 false);
                     CallDrop (drag_event 400 300 false);
                     CallTweenStep (fun t => [(Left, t); (Width, 0%float)]) 1;
                     CallEnd DropEnd; CallNgOnInit]
            initialised) !! 1%nat = Some it' /\
    Item.text it' = "Item 2"%string /\
    Item.color it' = "green"%string /\
    Item.left it' = 200%float /\
    Item.top it' = 100%float.
Proof.
  exact (calls_keep_tiles
           [CallDragStart (drag_event 230 140 false) 1%nat;
            CallMoveDragElement (drag_event 400 300 false);
            CallDrop (drag_event 400 300 false);
            CallTweenStep (fun t => [(Left, t); (Width, 0%float)]) 1;
            CallEnd DropEnd; CallNgOnInit]
           initialised 1%nat (Item.mk "Item 2" "green" 200 100 None) eq_refl).
Defined.

(** X15. The lists change only in [ngOnInit] and [drop], and the mouse
    offset only in [dragStart]: every other call leaves them as they are,
    whether it completes or throws. *)
Theorem lists_and_offset_frame (k : Call) (c : AppComponent) :
  match k with
  | CallNgOnInit | CallDrop _ => True
  | _ => draggable (after k c) = draggable c /\ dropped (after k c) = dropped c
  end /\
  match k with
  | CallDragStart _ _ => True
  | _ => mouseOffset (after k c) = mouseOffset c
  end.
Proof.
  destruct k as [|event item|event item|event|event|event|task|st t|k].
  - unfold after, call. rewrite ngOnInit_eq. split; [exact I | reflexivity].
  - rewrite after_dragStart. split; [|exact I].
    destruct (dragging c) as [d|] eqn:Hd.
    + rewrite (dragStart_busy event item c d Hd). split; reflexivity.
    + destruct (heap c !! item) as [it|] eqn:Hit.
      * rewrite (dragStart_eq event item c it Hd Hit). split; reflexivity.
      * rewrite (dragStart_unknown_item event item c Hd Hit). split; reflexivity.
  - unfold after, call. cbn. repeat split; reflexivity.
  - unfold after, call. rewrite dragOver_eq. repeat split; reflexivity.
  - unfold after, call. rewrite drop_eq. split; [exact I | reflexivity].
  - unfold after, call.
    destruct (moveDragElement event c) as [[[u c1] fx1]|] eqn:Hmove;
      [|repeat split; reflexivity].
    destruct (dragging c) as [d|] eqn:Hd.
    + destruct (dragItemStyle c) as [s|] eqn:Hs.
      * rewrite (moveDragElement_eq event c d s Hd Hs) in Hmove.
        injection Hmove as _ <- _. repeat split; reflexivity.
      * unfold moveDragElement, bind, this, assign in Hmove. rewrite Hd in Hmove.
        cbn in Hmove. rewrite Hs in Hmove. discriminate Hmove.
    + unfold moveDragElement, bind, this in Hmove. rewrite Hd in Hmove.
      cbn in Hmove. injection Hmove as _ <- _. repeat split; reflexivity.
  - unfold after, call. destruct task as [item]. cbn [run_task].
    rewrite set_item_visible_eq.
    destruct (heap c !! item) as [it|]; repeat split; reflexivity.
  - rewrite after_tween_step.
    destruct (tween_step st t c) as [[[u c1] fx1]|] eqn:Hstep;
      [|repeat split; reflexivity].
    destruct (dragItemStyle c) as [s|] eqn:Hs.
    + rewrite (tween_step_eq st t c s Hs) in Hstep. injection Hstep as _ <- _.
      repeat split; reflexivity.
    + destruct (tween_step_no_style st t c Hs) as [E|E]; rewrite E in Hstep;
        [discriminate Hstep|]. injection Hstep as _ <- _. repeat split; reflexivity.
  - unfold after, call.
    destruct (end_listener k c) as [[[u c1] fx1]|] eqn:Hend;
      [|repeat split; reflexivity].
    destruct k as [item|]; cbn [end_listener] in Hend; unfold bind, this in Hend.
    + rewrite set_item_visible_eq in Hend.
      destruct (heap c !! item) as [it|]; [|discriminate Hend].
      cbn in Hend. injection Hend as _ <- _. repeat split; reflexivity.
    + destruct (dragging c) as [d|]; [|discriminate Hend].
      rewrite set_item_visible_eq in Hend.
      destruct (heap c !! d) as [it|]; [|discriminate Hend].
      cbn in Hend. injection Hend as _ <- _. repeat split; reflexivity.
Qed.

(** ** ngOnInit on a component already in use *)

(** X16. From any state [ngOnInit] never throws and makes no call.  It puts
    three new objects behind the existing ones in the store and makes them
    the draggable list; the dropped list, [dragging], the ghost style and
    the mouse offset stay as they are.  An item that was being dragged is
    therefore not in the new draggable list. *)
Theorem ngOnInit_from_any_state (c : AppComponent) :
  exists c',
    ngOnInit c = Some (tt, c', []) /\
    draggable c' =
      [Some (length (heap c)); Some (S (length (heap c))); Some (S (S (length (heap c))))] /\
    heap c' =
      heap c ++ [Item.mk "Item 1" "red" 100 100 None;
                 Item.mk "Item 2" "green" 200 100 None;
                 Item.mk "Item 3" "yellow" 300 100 None] /\
    items_of c' (draggable c') =
      [Some (Item.mk "Item 1" "red" 100 100 None);
       Some (Item.mk "Item 2" "green" 200 100 None);
       Some (Item.mk "Item 3" "yellow" 300 100 None)] /\
    dropped c' = dropped c /\
    dragging c' = dragging c /\
    dragItemStyle c' = dragItemStyle c /\
    mouseOffset c' = mouseOffset c /\
    (forall d it,
       dragging c = Some d -> heap c !! d = Some it ->
       ~ In (dragging c') (draggable c')).
Proof.
  eexists. split; [apply ngOnInit_eq|]. cbn.
  rewrite !length_app. cbn [length].
  replace (length (heap c) + 1)%nat with (S (length (heap c))) by lia.
  replace (S (length (heap c)) + 1)%nat with (S (S (length (heap c)))) by lia.
  split; [reflexivity|].
  split; [now rewrite <- !app_assoc|].
  split.
  - rewrite <- !app_assoc. cbn [app]. unfold loc.
    rewrite (list_lookup_middle (heap c) _ _ (length (heap c))) by reflexivity.
    rewrite (lookup_app_r (heap c) _ (S (length (heap c)))) by lia.
    rewrite (lookup_app_r (heap c) _ (S (S (length (heap c))))) by lia.
    replace (S (length (heap c)) - length (heap c))%nat with 1%nat by lia.
    replace (S (S (length (heap c))) - length (heap c))%nat with 2%nat by lia.
    reflexivity.
  - repeat (split; [reflexivity|]).
    intros d it Hd Hit. rewrite Hd. apply lookup_lt_Some in Hit.
    intros [H|[H|[H|[]]]]; injection H as H; lia.
Qed.
